(** * script-coverage.py: narrowing an LCOV report to the lines of a commit

    A shallow embedding of [src/java/spring-boot/script-coverage.py] and the
    properties of its pipeline: [get_git_diff_lines], [parse_lcov_report],
    [filter_lcov_by_git_diff], [save_filtered_lcov_report] and [main].

    Modelling conventions.
    - A Python [str] is a [string]; a character is its code point, so the
      model covers text whose code points are below 256.  Whitespace and
      digit classes follow [str.isspace] and [str.isdigit] on that range.
    - A Python [int] is a [Z].
    - A Python [dict] keeps its keys in insertion order, and both loops of
      the filter iterate in that order: a dict is an association list with
      the operations [dict_get] and [dict_set] below.
    - A Python [set] of ints is a [gset Z].
    - Exceptions are values of [Exception]; code that can raise returns in
      the error monad [result].
    - The [print] calls write to the console only and are left out. *)

From Stdlib Require Import Ascii ZArith.
From stdpp Require Import gmap strings list pretty.

Local Open Scope Z_scope.

(** ** Insertion-ordered dictionaries *)

Module Dict.
Section dict.
Context {V : Type}.

Definition dict := list (string * V).

(** [d[k]], with [None] for a [KeyError]. *)
Fixpoint dict_get (d : dict) (k : string) : option V :=
  match d with
  | [] => None
  | (k', v) :: d' => if decide (k' = k) then Some v else dict_get d' k
  end.

(** [d[k] = v]: an existing key keeps its position, a new key goes last. *)
Fixpoint dict_set (d : dict) (k : string) (v : V) : dict :=
  match d with
  | [] => [(k, v)]
  | (k', v') :: d' =>
      if decide (k' = k) then (k', v) :: d' else (k', v') :: dict_set d' k v
  end.

(** A change of the entry of [k], made through an alias of its value. *)
Fixpoint dict_update (f : V → V) (k : string) (d : dict) : dict :=
  match d with
  | [] => []
  | (k', v) :: d' =>
      if decide (k' = k) then (k', f v) :: d' else (k', v) :: dict_update f k d'
  end.

(** [d.keys()] and [d.items()], in iteration order. *)
Definition dict_keys (d : dict) : list string := d.*1.
Definition dict_items (d : dict) : list (string * V) := d.

(** A list is a well-formed dict when no key occurs twice. *)
Definition dict_wf (d : dict) : Prop := NoDup (dict_keys d).

(** Python's [==] on dicts compares the mappings and ignores the order. *)
Definition dict_eq (d1 d2 : dict) : Prop :=
  ∀ k, dict_get d1 k = dict_get d2 k.
End dict.
Global Arguments dict : clear implicits.
End Dict.
Import Dict.

(** ** Strings *)

Module Str.

(** [c.isspace()] for a code point below 256. *)
Definition isspace_char (c : ascii) : bool :=
  let n := nat_of_ascii c in
  ((9 <=? n)%nat && (n <=? 13)%nat) || ((28 <=? n)%nat && (n <=? 32)%nat)
  || (n =? 133)%nat || (n =? 160)%nat.

(** The ten decimal digits. *)
Definition decimal_char (c : ascii) : bool :=
  let n := nat_of_ascii c in (48 <=? n)%nat && (n <=? 57)%nat.

(** [c.isdigit()]: the decimal digits and the superscripts 1, 2, 3. *)
Definition isdigit_char (c : ascii) : bool :=
  let n := nat_of_ascii c in
  decimal_char c || (n =? 178)%nat || (n =? 179)%nat || (n =? 185)%nat.

Fixpoint forallb_str (p : ascii → bool) (s : string) : bool :=
  match s with
  | "" => true
  | String c s' => p c && forallb_str p s'
  end.

(** [s.isdigit()]: at least one character, all of them digits. *)
Definition isdigit (s : string) : bool :=
  match s with
  | "" => false
  | _ => forallb_str isdigit_char s
  end.

(** [s.startswith(p)]. *)
Fixpoint startswith (s p : string) : bool :=
  match p, s with
  | "", _ => true
  | String a p', String b s' => if decide (a = b) then startswith s' p' else false
  | String _ _, "" => false
  end.

(** [p in s] on strings: [p] occurs in [s] as a contiguous substring. *)
Fixpoint str_in (p s : string) : bool :=
  startswith s p ||
  match s with
  | "" => false
  | String _ s' => str_in p s'
  end.

(** [s[n:]]. *)
Fixpoint slice_from (n : nat) (s : string) : string :=
  match n, s with
  | O, _ => s
  | S n', String _ s' => slice_from n' s'
  | S _, "" => ""
  end.

(** Removing the leading, and the trailing, characters of a class. *)
Fixpoint lstrip_by (sp : ascii → bool) (s : string) : string :=
  match s with
  | String c s' => if sp c then lstrip_by sp s' else s
  | "" => ""
  end.

Fixpoint rstrip_by (sp : ascii → bool) (s : string) : string :=
  match s with
  | "" => ""
  | String c s' =>
      match rstrip_by sp s' with
      | "" => if sp c then "" else String c ""
      | r => String c r
      end
  end.

(** [s.strip()]. *)
Definition strip (s : string) : string :=
  rstrip_by isspace_char (lstrip_by isspace_char s).

(** Splitting at the characters that satisfy [sep]; [cur] is the piece
    being read, in reverse. *)
Fixpoint split_go (sep : ascii → bool) (cur : string) (s : string) : list string :=
  match s with
  | "" => [String.rev cur]
  | String c s' =>
      if sep c then String.rev cur :: split_go sep "" s'
      else split_go sep (String c cur) s'
  end.

(** [s.split(',')]: every separator cuts, empty pieces are kept. *)
Definition split_on (c : ascii) (s : string) : list string :=
  split_go (λ x, bool_decide (x = c)) "" s.

(** [s.split()]: runs of whitespace cut, empty pieces are dropped. *)
Definition split (s : string) : list string :=
  filter (λ w, w ≠ "") (split_go isspace_char "" s).

(** Line boundaries of [str.splitlines] below 256, other than CR and LF. *)
Definition linebreak_char (c : ascii) : bool :=
  let n := nat_of_ascii c in
  (n =? 11)%nat || (n =? 12)%nat || (n =? 28)%nat || (n =? 29)%nat
  || (n =? 30)%nat || (n =? 133)%nat.

(** Cutting a text into lines; [wide] selects the boundaries of
    [splitlines], otherwise only LF, CR and CR LF end a line.  A final
    line terminator does not open an empty last line. *)
Fixpoint lines_go (wide : bool) (cur : string) (s : string) : list string :=
  match s with
  | "" => match cur with "" => [] | _ => [String.rev cur] end
  | String c s' =>
      if bool_decide (c = "013"%char) then
        match s' with
        | String c' s'' =>
            if bool_decide (c' = "010"%char)
            then String.rev cur :: lines_go wide "" s''
            else String.rev cur :: lines_go wide "" s'
        | "" => [String.rev cur]
        end
      else if bool_decide (c = "010"%char) || (wide && linebreak_char c)
      then String.rev cur :: lines_go wide "" s'
      else lines_go wide (String c cur) s'
  end.

(** [s.splitlines()]. *)
Definition splitlines (s : string) : list string := lines_go true "" s.

(** The lines a text-mode file yields on iteration, without their
    terminators (the parser strips every line before it looks at it). *)
Definition file_lines (s : string) : list string := lines_go false "" s.

Definition digit_value (c : ascii) : Z := Z.of_nat (nat_of_ascii c) - 48.

(** The digits of an [int] literal: decimal digits, with single
    underscores allowed between two digits. *)
Fixpoint int_digits (acc : Z) (after_digit : bool) (s : string) : option Z :=
  match s with
  | "" => if after_digit then Some acc else None
  | String c s' =>
      if bool_decide (c = "_"%char) then
        if after_digit then int_digits acc false s' else None
      else if decimal_char c then int_digits (10 * acc + digit_value c) true s'
      else None
  end.

(** The whitespace [int] skips around a literal: the separators 28 to 31
    are whitespace for [strip] but not here. *)
Definition int_space_char (c : ascii) : bool :=
  let n := nat_of_ascii c in
  ((9 <=? n)%nat && (n <=? 13)%nat) || (n =? 32)%nat
  || (n =? 133)%nat || (n =? 160)%nat.

(** [int(s)]: surrounding whitespace is ignored, one sign is allowed;
    [None] stands for the [ValueError] of a malformed literal.  The
    interpreter's limit on the length of a literal is not modelled. *)
Definition int (s : string) : option Z :=
  match rstrip_by int_space_char (lstrip_by int_space_char s) with
  | String "+"%char s' => int_digits 0 false s'
  | String "-"%char s' => Z.opp <$> int_digits 0 false s'
  | s' => int_digits 0 false s'
  end.

(** [str(n)] for an [int]. *)
Definition str (n : Z) : string := pretty n.

End Str.

(** ** Exceptions and the error monad *)

Inductive Exception : Type :=
  | PyException (msg : string)        (* [raise Exception(msg)] *)
  | FileNotFoundError (msg : string)
  | ValueError                        (* [int] of a malformed literal *)
  | IndexError                        (* [parts[1]] past the end *)
  | TypeError.                        (* subscript of [None] *)

Global Instance Exception_eq_dec : EqDecision Exception.
Proof. solve_decision. Defined.

Definition result (A : Type) : Type := Exception + A.

Definition raise {A} (e : Exception) : result A := inl e.

Global Instance result_ret : MRet result := λ A x, inr x.
Global Instance result_bind : MBind result := λ A B f m,
  match m with
  | inl e => inl e
  | inr x => f x
  end.

(** [int(s)] as a computation that can raise [ValueError]. *)
Definition int_of (s : string) : result Z :=
  match Str.int s with
  | Some n => mret n
  | None => raise ValueError
  end.

(** A [for] loop whose body can raise: the first exception ends the loop. *)
Fixpoint for_each {A S} (body : S → A → result S) (xs : list A) (s : S) : result S :=
  match xs with
  | [] => mret s
  | x :: xs' => s' ← body s x; for_each body xs' s'
  end.

(** ** The data model *)

(** The outcome of [subprocess.run]: the fields the script reads. *)
Record CompletedProcess : Type := {
  returncode : Z;
  stdout : string;
  stderr : string
}.

(** One coverage record, the dict built for each [SF:] line.  [FN] and
    [FNDA] hold the raw text after the directive. *)
Record coverage_record : Type := {
  DA : list (Z * Z);
  FN : list string;
  FNDA : list string;
  FNF : Z;
  FNH : Z;
  LH : Z;
  LF : Z
}.

Global Instance coverage_record_eq_dec : EqDecision coverage_record.
Proof. solve_decision. Defined.

(** The change set: file path to set of line numbers. *)
Abbreviation ChangeSet := (dict (gset Z)).
(** The coverage report: [SF:] path to record. *)
Abbreviation CoverageReport := (dict coverage_record).

(** ** [get_git_diff_lines] *)

(** [range(a, b)]. *)
Definition range (a b : Z) : list Z := seqZ a (b - a).

(** The command line of the diff. *)
Definition diff_command (commit_id folder_path : string) : list string :=
  ["git"; "diff"; commit_id; "--numstat"; "--"; folder_path].

(** The body of the loop over the lines of the diff output. *)
Definition diff_line (changes : ChangeSet) (line : string) : result ChangeSet :=
  if Str.startswith line "diff --git" then mret changes
  else
    match Str.split line with
    | [added; removed; filepath] =>
        if Str.isdigit added then
          n ← int_of added;
          mret (dict_set changes filepath (list_to_set (range 1 (n + 1))))
        else mret changes
    | _ => mret changes
    end.

(** The parsing half of [get_git_diff_lines], from the captured output. *)
Definition parse_numstat (diff_lines : string) : result ChangeSet :=
  for_each diff_line (Str.splitlines diff_lines) [].

(** [subprocess_run] stands for the external command: it maps the argument
    vector to what the process returned. *)
Definition get_git_diff_lines (subprocess_run : list string → CompletedProcess)
    (commit_id folder_path : string) : result ChangeSet :=
  let command := diff_command commit_id folder_path in
  let result := subprocess_run command in
  if bool_decide (returncode result ≠ 0) then
    raise (PyException ("Error getting git diff: " +:+ stderr result))
  else parse_numstat (stdout result).

(** ** [parse_lcov_report] *)

(** The record a [SF:] line starts. *)
Definition new_record : coverage_record :=
  {| DA := []; FN := []; FNDA := []; FNF := 0; FNH := 0; LH := 0; LF := 0 |}.

Definition append_DA (x : Z * Z) (r : coverage_record) : coverage_record :=
  {| DA := DA r ++ [x]; FN := FN r; FNDA := FNDA r; FNF := FNF r; FNH := FNH r;
     LH := LH r; LF := LF r |}.
Definition append_FN (x : string) (r : coverage_record) : coverage_record :=
  {| DA := DA r; FN := FN r ++ [x]; FNDA := FNDA r; FNF := FNF r; FNH := FNH r;
     LH := LH r; LF := LF r |}.
Definition append_FNDA (x : string) (r : coverage_record) : coverage_record :=
  {| DA := DA r; FN := FN r; FNDA := FNDA r ++ [x]; FNF := FNF r; FNH := FNH r;
     LH := LH r; LF := LF r |}.
Definition set_FNF (x : Z) (r : coverage_record) : coverage_record :=
  {| DA := DA r; FN := FN r; FNDA := FNDA r; FNF := x; FNH := FNH r;
     LH := LH r; LF := LF r |}.
Definition set_FNH (x : Z) (r : coverage_record) : coverage_record :=
  {| DA := DA r; FN := FN r; FNDA := FNDA r; FNF := FNF r; FNH := x;
     LH := LH r; LF := LF r |}.
Definition set_LH (x : Z) (r : coverage_record) : coverage_record :=
  {| DA := DA r; FN := FN r; FNDA := FNDA r; FNF := FNF r; FNH := FNH r;
     LH := x; LF := LF r |}.
Definition set_LF (x : Z) (r : coverage_record) : coverage_record :=
  {| DA := DA r; FN := FN r; FNDA := FNDA r; FNF := FNF r; FNH := FNH r;
     LH := LH r; LF := x |}.

(** The state of the parsing loop.  [coverage_record] in the source is the
    very object stored at [coverage_data[current_file]], or [None] before
    the first [SF:] line; a change made through it is a change of that
    entry, so the model keeps the key and updates the entry in place. *)
Record parse_state : Type := {
  coverage_data : CoverageReport;
  current_file : option string
}.

(** [coverage_record[...]] read or written: a [TypeError] on [None]. *)
Definition with_record (f : coverage_record → coverage_record)
    (st : parse_state) : result parse_state :=
  match current_file st with
  | None => raise TypeError
  | Some cf =>
      mret {| coverage_data := dict_update f cf (coverage_data st);
              current_file := Some cf |}
  end.

(** The body of the loop over the lines of the report. *)
Definition parse_line (st : parse_state) (raw : string) : result parse_state :=
  let line := Str.strip raw in
  if Str.startswith line "SF:" then
    let cf := Str.slice_from 3 line in
    mret {| coverage_data := dict_set (coverage_data st) cf new_record;
            current_file := Some cf |}
  else if Str.startswith line "DA:" then
    let parts := Str.split_on "," (Str.slice_from 3 line) in
    line_number ← from_option int_of (raise IndexError) (parts !! 0%nat);
    coverage_hits ← from_option int_of (raise IndexError) (parts !! 1%nat);
    with_record (append_DA (line_number, coverage_hits)) st
  else if Str.startswith line "FN:" then
    with_record (append_FN (Str.slice_from 3 line)) st
  else if Str.startswith line "FNDA:" then
    with_record (append_FNDA (Str.slice_from 5 line)) st
  else if Str.startswith line "FNF:" then
    v ← int_of (Str.slice_from 4 line); with_record (set_FNF v) st
  else if Str.startswith line "FNH:" then
    v ← int_of (Str.slice_from 4 line); with_record (set_FNH v) st
  else if Str.startswith line "LH:" then
    v ← int_of (Str.slice_from 3 line); with_record (set_LH v) st
  else if Str.startswith line "LF:" then
    v ← int_of (Str.slice_from 3 line); with_record (set_LF v) st
  else mret st.

(** The loop of [parse_lcov_report] over the lines of an opened report. *)
Definition parse_lcov_lines (lines : list string) : result CoverageReport :=
  st ← for_each parse_line lines {| coverage_data := []; current_file := None |};
  mret (coverage_data st).

(** ** Files and the computations that use them *)

(** The file system: the text stored at each path that exists. *)
Abbreviation FileSystem := (gmap string string).

(** A computation that reads and writes files and can raise. *)
Definition io (A : Type) : Type := FileSystem → result A * FileSystem.

Global Instance io_ret : MRet io := λ A x fs, (inr x, fs).
Global Instance io_bind : MBind io := λ A B f m fs,
  match m fs with
  | (inl e, fs') => (inl e, fs')
  | (inr x, fs') => f x fs'
  end.

(** A computation that touches no file. *)
Definition pure_io {A} (m : result A) : io A := λ fs, (m, fs).

Definition parse_lcov_report (lcov_report_path : string) : io CoverageReport :=
  λ fs,
    match fs !! lcov_report_path with
    | None =>
        (raise (FileNotFoundError
                  ("LCOV report not found at path: " +:+ lcov_report_path)), fs)
    | Some text => (parse_lcov_lines (Str.file_lines text), fs)
    end.

(** ** [filter_lcov_by_git_diff] *)

(** The list comprehension that keeps the entries of the changed lines. *)
Definition filter_DA (da : list (Z * Z)) (changed_lines : gset Z) : list (Z * Z) :=
  filter (λ p, p.1 ∈ changed_lines) da.

(** The record stored for a match with surviving entries. *)
Definition filtered_record (data : coverage_record) (changed_lines : gset Z)
    : coverage_record :=
  let filtered_da := filter_DA (DA data) changed_lines in
  let filtered_lh := Z.of_nat (length filtered_da) in
  let filtered_lf := Z.of_nat (size (list_to_set (filtered_da.*1) : gset Z)) in
  {| FN := FN data; FNDA := FNDA data; FNF := FNF data; FNH := FNH data;
     DA := filtered_da; LH := filtered_lh; LF := filtered_lf |}.

(** The body of the inner loop, for one key [cd] of the report. *)
Definition filter_step (coverage_data : CoverageReport) (file : string)
    (changed_lines : gset Z) (filtered_coverage : CoverageReport) (cd : string)
    : CoverageReport :=
  if Str.str_in cd file then
    match dict_get coverage_data cd with
    | Some data =>
        match filter_DA (DA data) changed_lines with
        | [] => filtered_coverage
        | _ :: _ => dict_set filtered_coverage cd (filtered_record data changed_lines)
        end
    | None => filtered_coverage   (* [cd] is a key: does not happen *)
    end
  else filtered_coverage.

Definition filter_lcov_by_git_diff (git_diff_changes : ChangeSet)
    (coverage_data : CoverageReport) : CoverageReport :=
  foldl (λ filtered_coverage '(file, changed_lines),
           foldl (filter_step coverage_data file changed_lines)
                 filtered_coverage (dict_keys coverage_data))
        [] (dict_items git_diff_changes).

(** ** [save_filtered_lcov_report] and [main] *)

Definition newline : string := String "010"%char "".

(** The text written for one record. *)
Definition record_text (file : string) (data : coverage_record) : string :=
  "SF:" +:+ file +:+ newline
  +:+ String.concat "" ((λ fn, "FN:" +:+ fn +:+ newline) <$> FN data)
  +:+ String.concat "" ((λ fnda, "FNDA:" +:+ fnda +:+ newline) <$> FNDA data)
  +:+ "FNF:" +:+ Str.str (FNF data) +:+ newline
  +:+ "FNH:" +:+ Str.str (FNH data) +:+ newline
  +:+ String.concat ""
        ((λ '(line, hits), "DA:" +:+ Str.str line +:+ "," +:+ Str.str hits +:+ newline)
           <$> DA data)
  +:+ "LH:" +:+ Str.str (LH data) +:+ newline
  +:+ "LF:" +:+ Str.str (LF data) +:+ newline
  +:+ "end_of_record" +:+ newline.

Definition report_text (filtered_coverage : CoverageReport) : string :=
  String.concat "" ((λ '(file, data), record_text file data) <$> dict_items filtered_coverage).

(** Opening the output for writing replaces what the path held.  A path
    that cannot be opened is outside the model. *)
Definition save_filtered_lcov_report (filtered_coverage : CoverageReport)
    (output_path : string) : io () :=
  λ fs, (inr (), <[output_path := report_text filtered_coverage]> fs).

Definition main (subprocess_run : list string → CompletedProcess)
    (commit_id folder_path lcov_report_path output_lcov_path : string) : io () :=
  git_diff_changes ← pure_io (get_git_diff_lines subprocess_run commit_id folder_path);
  coverage_data ← parse_lcov_report lcov_report_path;
  let filtered_coverage := filter_lcov_by_git_diff git_diff_changes coverage_data in
  save_filtered_lcov_report filtered_coverage output_lcov_path.

(** ** Definitions used to state the properties *)

(** What one change-set entry does to the record stored for the key [cd]. *)
Definition match_step (coverage_data : CoverageReport) (cd file : string)
    (changed_lines : gset Z) (stored : option coverage_record)
    : option coverage_record :=
  if Str.str_in cd file then
    match dict_get coverage_data cd with
    | Some data =>
        match filter_DA (DA data) changed_lines with
        | [] => stored
        | _ :: _ => Some (filtered_record data changed_lines)
        end
    | None => stored
    end
  else stored.

(** The record stored for [cd] after the whole change set. *)
Definition stored_for (coverage_data : CoverageReport) (cd : string)
    (git_diff_changes : ChangeSet) : option coverage_record :=
  foldl (λ stored '(file, changed_lines),
           match_step coverage_data cd file changed_lines stored)
        None git_diff_changes.

(** The line opens a record. *)
Definition starts_record (raw : string) : bool :=
  Str.startswith (Str.strip raw) "SF:".

(** The line is one of the directives that fill the current record. *)
Definition data_directive (raw : string) : bool :=
  let line := Str.strip raw in
  Str.startswith line "DA:" || Str.startswith line "FN:"
  || Str.startswith line "FNDA:" || Str.startswith line "FNF:"
  || Str.startswith line "FNH:" || Str.startswith line "LH:"
  || Str.startswith line "LF:".

(** The exceptions a directive can raise. *)
Definition directive_error (e : Exception) : Prop :=
  e = TypeError ∨ e = ValueError ∨ e = IndexError.

(** A state of the parsing loop with an open record. *)
Definition open_state : parse_state :=
  {| coverage_data := [("", new_record)]; current_file := Some "" |}.

(** The line is accepted when a record is open: its numeric fields are
    well formed. *)
Definition accepted (raw : string) : bool :=
  match parse_line open_state raw with
  | inr _ => true
  | inl _ => false
  end.


(** ** Example inputs *)

(** The scenario of three added lines in [src/Foo.java]. *)
Definition example_changes : ChangeSet :=
  [("src/Foo.java", list_to_set (range 1 4))].

Definition example_record : coverage_record :=
  {| DA := [(1, 5); (2, 0); (5, 3)]; FN := ["3,foo"]; FNDA := ["1,foo"];
     FNF := 1; FNH := 1; LH := 2; LF := 3 |}.

Definition example_report : CoverageReport := [("src/Foo.java", example_record)].

Definition example_filtered : coverage_record :=
  {| DA := [(1, 5); (2, 0)]; FN := ["3,foo"]; FNDA := ["1,foo"];
     FNF := 1; FNH := 1; LH := 2; LF := 2 |}.

(** A report whose only line is outside the change set. *)
Definition uncovered_report : CoverageReport :=
  [("src/Foo.java",
    {| DA := [(5, 3)]; FN := []; FNDA := []; FNF := 0; FNH := 0; LH := 1; LF := 1 |})].

(** Two change-set entries that both contain the key [Foo]; only the first
    one shares a line with the report. *)
Definition two_matches : ChangeSet :=
  [("aFoo", {[ 1 ]}); ("bFoo", {[ 9 ]})].

Definition one_line_record : coverage_record :=
  {| DA := [(1, 1)]; FN := []; FNDA := []; FNF := 0; FNH := 0; LH := 1; LF := 1 |}.

Definition Foo_report : CoverageReport := [("Foo", one_line_record)].

(** ** The claims about the filter, as the specification words them *)

(** A record contributes exactly when its key is a substring of a key of
    the change set. *)
Definition contributes_iff_substring (cs : ChangeSet) (r : CoverageReport) : Prop :=
  ∀ cd, cd ∈ dict_keys r →
    (cd ∈ dict_keys (filter_lcov_by_git_diff cs r)
     ↔ ∃ file, file ∈ dict_keys cs ∧ Str.str_in cd file = true).

(** The record of a key is the one filtered against the last matching entry
    of the change set. *)
Definition last_match_decides (cs : ChangeSet) (r : CoverageReport) : Prop :=
  ∀ cd data pre file changed_lines post,
    dict_items cs = pre ++ (file, changed_lines) :: post →
    Str.str_in cd file = true →
    (∀ file' lines', (file', lines') ∈ post → Str.str_in cd file' = false) →
    dict_get r cd = Some data →
    dict_get (filter_lcov_by_git_diff cs r) cd
    = Some (filtered_record data changed_lines).

(** The tab character of the numstat format. *)
Definition tab : string := String "009"%char "".

(** A diff of one text file with three added lines and one binary file. *)
Definition text_line : string := "3" +:+ tab +:+ "0" +:+ tab +:+ "src/Foo.java".
Definition binary_line : string := "-" +:+ tab +:+ "-" +:+ tab +:+ "logo.png".

Definition example_run (command : list string) : CompletedProcess :=
  {| returncode := 0;
     stdout := text_line +:+ newline +:+ binary_line +:+ newline;
     stderr := "" |}.

(** A diff command that fails. *)
Definition failing_run (command : list string) : CompletedProcess :=
  {| returncode := 1; stdout := ""; stderr := "fatal: bad revision" |}.

(** A report whose first line is a [DA:] directive, and a well-formed one. *)
Definition headless_report : string :=
  "DA:1,5" +:+ newline +:+ "SF:src/Foo.java" +:+ newline.

Definition wellformed_report : string :=
  "SF:src/Foo.java" +:+ newline +:+ "DA:1,5" +:+ newline
  +:+ "end_of_record" +:+ newline.

(** The report of the scenario, and the text the run writes for it. *)
Definition scenario_report : string :=
  "SF:src/Foo.java" +:+ newline +:+ "FN:3,foo" +:+ newline
  +:+ "FNDA:1,foo" +:+ newline +:+ "FNF:1" +:+ newline +:+ "FNH:1" +:+ newline
  +:+ "DA:1,5" +:+ newline +:+ "DA:2,0" +:+ newline +:+ "DA:5,3" +:+ newline
  +:+ "LH:2" +:+ newline +:+ "LF:3" +:+ newline +:+ "end_of_record" +:+ newline.

Definition scenario_filtered : string :=
  "SF:src/Foo.java" +:+ newline +:+ "FN:3,foo" +:+ newline
  +:+ "FNDA:1,foo" +:+ newline +:+ "FNF:1" +:+ newline +:+ "FNH:1" +:+ newline
  +:+ "DA:1,5" +:+ newline +:+ "DA:2,0" +:+ newline
  +:+ "LH:2" +:+ newline +:+ "LF:2" +:+ newline +:+ "end_of_record" +:+ newline.

(** A change set whose first entry contains both keys of the report and
    whose second entry contains only the first key. *)
Definition crossing_changes : ChangeSet := [("xy", {[ 1 ]}); ("x", {[ 2 ]})].

Definition crossing_report : CoverageReport :=
  [("x", {| DA := [(1, 0); (2, 0)]; FN := []; FNDA := []; FNF := 0; FNH := 0;
            LH := 0; LF := 2 |});
   ("y", {| DA := [(1, 0)]; FN := []; FNDA := []; FNF := 0; FNH := 0;
            LH := 0; LF := 1 |})].

(** A change set that holds the path of the report and a longer path that
    contains it, with more lines. *)
Definition nested_changes : ChangeSet :=
  [("Foo.java", {[ 1 ]}); ("lib/Foo.java", list_to_set (range 1 4))].

Definition nested_report : CoverageReport :=
  [("Foo.java", {| DA := [(1, 1); (2, 1)]; FN := []; FNDA := []; FNF := 0;
                   FNH := 0; LH := 2; LF := 2 |})].

(** A diff output with the line of a path that holds a blank. *)
Definition spaced_path_line : string :=
  "1" +:+ tab +:+ "0" +:+ tab +:+ "src/My File.java".

Definition spaced_path_run (command : list string) : CompletedProcess :=
  {| returncode := 0;
     stdout := text_line +:+ newline +:+ spaced_path_line +:+ newline;
     stderr := "" |}.

(** A diff output whose added count is the superscript two. *)
Definition superscript_run (command : list string) : CompletedProcess :=
  {| returncode := 0;
     stdout := String "178"%char "" +:+ tab +:+ "0" +:+ tab +:+ "src/Foo.java";
     stderr := "" |}.


(** ** Definitions used to state the further properties *)

(** The path a [SF:] line names. *)
Definition record_path (raw : string) : string :=
  Str.slice_from 3 (Str.strip raw).

(** What a line other than [SF:] does to the current record: nothing, a
    change of the record, or an exception of its own fields. *)
Definition directive_effect (raw : string)
    : result (option (coverage_record → coverage_record)) :=
  let line := Str.strip raw in
  if Str.startswith line "DA:" then
    let parts := Str.split_on "," (Str.slice_from 3 line) in
    line_number ← from_option int_of (raise IndexError) (parts !! 0%nat);
    coverage_hits ← from_option int_of (raise IndexError) (parts !! 1%nat);
    mret (Some (append_DA (line_number, coverage_hits)))
  else if Str.startswith line "FN:" then
    mret (Some (append_FN (Str.slice_from 3 line)))
  else if Str.startswith line "FNDA:" then
    mret (Some (append_FNDA (Str.slice_from 5 line)))
  else if Str.startswith line "FNF:" then
    v ← int_of (Str.slice_from 4 line); mret (Some (set_FNF v))
  else if Str.startswith line "FNH:" then
    v ← int_of (Str.slice_from 4 line); mret (Some (set_FNH v))
  else if Str.startswith line "LH:" then
    v ← int_of (Str.slice_from 3 line); mret (Some (set_LH v))
  else if Str.startswith line "LF:" then
    v ← int_of (Str.slice_from 3 line); mret (Some (set_LF v))
  else mret None.

(** A report with a closing marker and a branch directive, which the
    parser does not read. *)
Definition marked_lines : list string :=
  ["SF:src/Foo.java"; "DA:1,5"; "BRDA:1,0,0,1"; "end_of_record"].

(** A report that names the same path twice. *)
Definition repeated_lines : list string :=
  ["SF:src/Foo.java"; "DA:1,5"; "FNF:2"; "SF:src/Foo.java"; "DA:7,1"].

(** A change set with an entry for a file the report does not know. *)
Definition changes_with_stranger : ChangeSet :=
  [("docs/README.md", list_to_set (range 1 10)); ("src/Foo.java", list_to_set (range 1 4))].

(** A text that can be written as the rest of a line and read back: it
    holds no line terminator and does not end in whitespace. *)
Definition no_linebreak (s : string) : bool :=
  Str.forallb_str
    (λ c, negb (bool_decide (c = "010"%char) || bool_decide (c = "013"%char))) s.

Definition writable (s : string) : bool :=
  no_linebreak s && bool_decide (Str.rstrip_by Str.isspace_char s = s).

(** A report all of whose paths and function descriptors are writable. *)
Definition writable_report (d : CoverageReport) : bool :=
  forallb (λ '(file, data),
             writable file && forallb writable (FN data)
             && forallb writable (FNDA data)) d.

(** The lines [save_filtered_lcov_report] writes for one record, and for a
    report. *)
Definition record_lines (file : string) (data : coverage_record) : list string :=
  ["SF:" +:+ file]
  ++ ((λ fn, "FN:" +:+ fn) <$> FN data)
  ++ ((λ fnda, "FNDA:" +:+ fnda) <$> FNDA data)
  ++ ["FNF:" +:+ Str.str (FNF data); "FNH:" +:+ Str.str (FNH data)]
  ++ ((λ '(line, hits), "DA:" +:+ Str.str line +:+ "," +:+ Str.str hits) <$> DA data)
  ++ ["LH:" +:+ Str.str (LH data); "LF:" +:+ Str.str (LF data); "end_of_record"].

Definition report_lines (d : CoverageReport) : list string :=
  d ≫= (λ '(file, data), record_lines file data).

(** A text made of lines, each with its terminator. *)
Definition unlines (ls : list string) : string :=
  foldr (λ l acc, l +:+ newline +:+ acc) "" ls.

(** The characters of a printed integer. *)
Definition numeral_char (c : ascii) : bool :=
  Str.decimal_char c || bool_decide (c = "-"%char).

(** The state of the parsing loop while the last record, [rec] under the
    key [cf], is the current one. *)
Definition reading (pre : CoverageReport) (cf : string) (rec : coverage_record)
    : parse_state :=
  {| coverage_data := pre ++ [(cf, rec)]; current_file := Some cf |}.


(** The path and the function descriptors of one entry can be written. *)
Definition writable_entry (entry : string * coverage_record) : bool :=
  writable entry.1 && forallb writable (FN entry.2)
  && forallb writable (FNDA entry.2).

(** A diff command that succeeds and prints nothing. *)
Definition silent_run (command : list string) : CompletedProcess :=
  {| returncode := 0; stdout := ""; stderr := "" |}.

(** * Properties *)

(** ** Dictionaries *)

Section dict_facts.
Context {V : Type}.
Implicit Types (d : dict V) (k : string) (v : V).

Lemma dict_get_set_eq d k v : dict_get (dict_set d k v) k = Some v.
Proof.
  induction d as [|[k' v'] d IH]; simpl.
  - by rewrite decide_True.
  - destruct (decide (k' = k)) as [->|Hne]; simpl.
    + by rewrite decide_True.
    + by rewrite decide_False.
Qed.

Lemma dict_get_set_ne d k k' v :
  k ≠ k' → dict_get (dict_set d k v) k' = dict_get d k'.
Proof.
  intros Hne. induction d as [|[k0 v0] d IH]; simpl.
  - by rewrite decide_False.
  - destruct (decide (k0 = k)) as [->|Hk]; simpl.
    + by rewrite !decide_False.
    + by rewrite IH.
Qed.

Lemma dict_get_set d k k' v :
  dict_get (dict_set d k v) k' = if decide (k = k') then Some v else dict_get d k'.
Proof.
  destruct (decide (k = k')) as [->|Hne];
    [apply dict_get_set_eq | by apply dict_get_set_ne].
Qed.

Lemma dict_keys_set d k v :
  dict_keys (dict_set d k v)
  = if decide (k ∈ dict_keys d) then dict_keys d else dict_keys d ++ [k].
Proof.
  unfold dict_keys. induction d as [|[k' v'] d IH]; csimpl.
  - done.
  - destruct (decide (k' = k)) as [->|Hk]; csimpl.
    + by rewrite decide_True by left.
    + rewrite IH. destruct (decide (k ∈ d.*1)) as [Hin|Hin].
      * by rewrite decide_True by (by right).
      * rewrite decide_False; [done|].
        intros [?|?]%elem_of_cons; congruence.
Qed.

Lemma dict_wf_set d k v : dict_wf d → dict_wf (dict_set d k v).
Proof.
  unfold dict_wf. rewrite dict_keys_set. intros Hwf.
  destruct (decide (k ∈ dict_keys d)) as [|Hin]; [done|].
  apply NoDup_app. split_and!; [done| |apply NoDup_singleton].
  intros x Hx ->%list_elem_of_singleton. done.
Qed.

Lemma dict_get_None d k : dict_get d k = None ↔ k ∉ dict_keys d.
Proof.
  unfold dict_keys. induction d as [|[k' v'] d IH]; csimpl.
  - split; [intros _ ?%elem_of_nil; done | done].
  - destruct (decide (k' = k)) as [->|Hk].
    + split; [done|]. intros []. by left.
    + rewrite IH, not_elem_of_cons. split; [by intros ?; split; [congruence|] | by intros []].
Qed.

Lemma dict_get_is_Some d k : is_Some (dict_get d k) ↔ k ∈ dict_keys d.
Proof.
  rewrite <-not_eq_None_Some, dict_get_None.
  destruct (decide (k ∈ dict_keys d)); naive_solver.
Qed.

Lemma dict_get_elem_of d k v : dict_get d k = Some v → (k, v) ∈ dict_items d.
Proof.
  unfold dict_items. induction d as [|[k' v'] d IH]; simpl; [done|].
  destruct (decide (k' = k)) as [->|Hk].
  - intros [= ->]. by left.
  - intros ?. right. auto.
Qed.

Lemma dict_elem_of_get d k v :
  dict_wf d → (k, v) ∈ dict_items d → dict_get d k = Some v.
Proof.
  unfold dict_wf, dict_keys, dict_items.
  induction d as [|[k' v'] d IH]; csimpl; [by intros _ ?%elem_of_nil|].
  intros [Hnin Hwf]%NoDup_cons [Heq|Hin]%elem_of_cons.
  - injection Heq as -> ->. by rewrite decide_True.
  - rewrite decide_False; [by apply IH|].
    intros ->. apply Hnin. by apply (list_elem_of_fmap_2 fst) in Hin.
Qed.

(** Two well-formed dicts that are equal as mappings hold the same items. *)
Lemma dict_eq_Permutation d1 d2 :
  dict_wf d1 → dict_wf d2 → dict_eq d1 d2 → dict_items d1 ≡ₚ dict_items d2.
Proof.
  intros Hwf1 Hwf2 Heq. apply NoDup_Permutation.
  - by apply (NoDup_fmap_1 fst).
  - by apply (NoDup_fmap_1 fst).
  - intros [k v]. split; intros Hin.
    + apply dict_get_elem_of. rewrite <-Heq. by apply dict_elem_of_get.
    + apply dict_get_elem_of. rewrite Heq. by apply dict_elem_of_get.
Qed.
End dict_facts.

(** ** The filter, key by key *)

Section filter_facts.
Implicit Types (r : CoverageReport) (cs : ChangeSet) (cd file : string)
  (lines : gset Z) (data rec : coverage_record).

Lemma match_step_idemp r cd file lines o :
  match_step r cd file lines (match_step r cd file lines o)
  = match_step r cd file lines o.
Proof.
  unfold match_step. destruct (Str.str_in cd file); [|done].
  destruct (dict_get r cd) as [data|]; [|done].
  by destruct (filter_DA (DA data) lines).
Qed.

Lemma filter_step_get r file lines acc cd cd' :
  dict_get (filter_step r file lines acc cd) cd'
  = if decide (cd = cd') then match_step r cd' file lines (dict_get acc cd')
    else dict_get acc cd'.
Proof.
  unfold filter_step, match_step.
  destruct (decide (cd = cd')) as [->|Hne].
  - destruct (Str.str_in cd' file); [|done].
    destruct (dict_get r cd') as [data|]; [|done].
    destruct (filter_DA (DA data) lines); [done|].
    apply dict_get_set_eq.
  - destruct (Str.str_in cd file); [|done].
    destruct (dict_get r cd) as [data|]; [|done].
    destruct (filter_DA (DA data) lines); [done|].
    by apply dict_get_set_ne.
Qed.

Lemma inner_loop_get r file lines ks acc cd :
  dict_get (foldl (filter_step r file lines) acc ks) cd
  = if decide (cd ∈ ks) then match_step r cd file lines (dict_get acc cd)
    else dict_get acc cd.
Proof.
  revert acc. induction ks as [|k ks IH]; intros acc; simpl.
  - done.
  - rewrite IH, filter_step_get.
    destruct (decide (k = cd)) as [->|Hne], (decide (cd ∈ ks)) as [Hin|Hin];
      destruct (decide (cd ∈ _ :: ks)) as [Hc|Hc];
      rewrite ?elem_of_cons, ?not_elem_of_cons in Hc;
      try done; try (exfalso; tauto); try (destruct Hc; congruence).
    apply match_step_idemp.
Qed.

Lemma match_step_not_key r cd file lines o :
  cd ∉ dict_keys r → match_step r cd file lines o = o.
Proof.
  intros Hnin%dict_get_None. unfold match_step. rewrite Hnin.
  by destruct (Str.str_in cd file).
Qed.

Lemma outer_loop_get r cs acc cd :
  dict_get
    (foldl (λ filtered_coverage '(file, changed_lines),
              foldl (filter_step r file changed_lines)
                    filtered_coverage (dict_keys r))
           acc cs) cd
  = foldl (λ stored '(file, changed_lines),
             match_step r cd file changed_lines stored)
          (dict_get acc cd) cs.
Proof.
  revert acc. induction cs as [|[file lines] cs IH]; intros acc; simpl; [done|].
  rewrite IH. f_equal. rewrite inner_loop_get.
  destruct (decide (cd ∈ dict_keys r)); [done|].
  by rewrite match_step_not_key.
Qed.

(** The filtered report, read at one key. *)
Lemma filter_get cs r cd :
  dict_get (filter_lcov_by_git_diff cs r) cd = stored_for r cd cs.
Proof. apply outer_loop_get. Qed.

Lemma stored_for_snoc r cd cs file lines :
  stored_for r cd (cs ++ [(file, lines)])
  = match_step r cd file lines (stored_for r cd cs).
Proof. unfold stored_for. by rewrite foldl_app. Qed.

(** A stored record comes from one entry of the change set that matches
    the key and keeps at least one line. *)
Lemma stored_for_Some r cd cs rec :
  stored_for r cd cs = Some rec →
  ∃ file lines data,
    (file, lines) ∈ cs ∧ Str.str_in cd file = true ∧
    dict_get r cd = Some data ∧ filter_DA (DA data) lines ≠ [] ∧
    rec = filtered_record data lines.
Proof.
  induction cs as [|[file lines] cs IH] using rev_ind; [done|].
  rewrite stored_for_snoc. unfold match_step at 1.
  destruct (Str.str_in cd file) eqn:Hin;
    [destruct (dict_get r cd) as [data|] eqn:Hget;
     [destruct (filter_DA (DA data) lines) as [|p da] eqn:Hda|]|].
  2:{ intros [= <-]. exists file, lines, data.
      rewrite elem_of_app, list_elem_of_singleton, Hda. by split_and!; [right|..]. }
  all: intros (f & l & d & Hel & Hrest)%IH; exists f, l, d;
    (split; [rewrite elem_of_app; by left | done]).
Qed.

(** The key is dropped when no matching entry keeps a line. *)
Lemma stored_for_None r cd cs :
  (∀ file lines data,
      (file, lines) ∈ cs → Str.str_in cd file = true →
      dict_get r cd = Some data → filter_DA (DA data) lines = []) →
  stored_for r cd cs = None.
Proof.
  induction cs as [|[file lines] cs IH] using rev_ind; [done|].
  intros Hall. rewrite stored_for_snoc, IH.
  - unfold match_step.
    destruct (Str.str_in cd file) eqn:Hin; [|done].
    destruct (dict_get r cd) as [data|] eqn:Hget; [|done].
    rewrite (Hall file lines data); [done| |done..].
    rewrite elem_of_app, list_elem_of_singleton. by right.
  - intros f l d Hel. apply Hall. rewrite elem_of_app. by left.
Qed.

(** The last entry that matches and keeps a line decides the record. *)
Lemma stored_for_last r cd pre file lines post data :
  Str.str_in cd file = true →
  dict_get r cd = Some data →
  filter_DA (DA data) lines ≠ [] →
  (∀ file' lines', (file', lines') ∈ post → Str.str_in cd file' = true →
                   filter_DA (DA data) lines' = []) →
  stored_for r cd (pre ++ (file, lines) :: post)
  = Some (filtered_record data lines).
Proof.
  intros Hin Hget Hda.
  induction post as [|[f l] post IH] using rev_ind; intros Hpost.
  - rewrite stored_for_snoc. unfold match_step. rewrite Hin, Hget.
    by destruct (filter_DA (DA data) lines).
  - rewrite app_comm_cons, app_assoc, stored_for_snoc.
    rewrite IH.
    + unfold match_step. destruct (Str.str_in cd f) eqn:Hf; [|done].
      rewrite Hget, (Hpost f l); [done| |done].
      rewrite elem_of_app, list_elem_of_singleton. by right.
    + intros f' l' Hel. apply Hpost. rewrite elem_of_app. by left.
Qed.

Lemma inner_loop_wf r file lines ks acc :
  dict_wf acc → dict_wf (foldl (filter_step r file lines) acc ks).
Proof.
  revert acc. induction ks as [|k ks IH]; intros acc Hacc; simpl; [done|].
  apply IH. unfold filter_step.
  destruct (Str.str_in k file); [|done].
  destruct (dict_get r k) as [data|]; [|done].
  destruct (filter_DA (DA data) lines); [done|].
  by apply dict_wf_set.
Qed.

(** The filtered report is a well-formed dict, whatever it is given. *)
Lemma filter_wf cs r : dict_wf (filter_lcov_by_git_diff cs r).
Proof.
  unfold filter_lcov_by_git_diff, dict_items.
  assert (Hacc : dict_wf ([] : CoverageReport)) by apply NoDup_nil_2.
  revert Hacc. generalize ([] : CoverageReport) as acc.
  induction cs as [|[file lines] cs IH]; intros acc Hacc; simpl; [done|].
  by apply IH, inner_loop_wf.
Qed.
End filter_facts.

Section filter_more.
Implicit Types (r : CoverageReport) (cs : ChangeSet) (cd file : string)
  (lines : gset Z) (data rec : coverage_record) (da : list (Z * Z)).

Lemma filter_DA_elem_of da lines line hits :
  (line, hits) ∈ filter_DA da lines ↔ line ∈ lines ∧ (line, hits) ∈ da.
Proof. unfold filter_DA. by rewrite list_elem_of_filter. Qed.

Lemma filter_DA_idemp da lines :
  filter_DA (filter_DA da lines) lines = filter_DA da lines.
Proof.
  unfold filter_DA. rewrite list_filter_filter.
  apply list_filter_iff. tauto.
Qed.

Lemma filter_DA_nil da lines :
  filter_DA da lines = [] ↔ ∀ line hits, (line, hits) ∈ da → line ∉ lines.
Proof.
  split.
  - intros Hnil line hits Hel Hin.
    assert (Hf : (line, hits) ∈ filter_DA da lines)
      by by apply filter_DA_elem_of.
    rewrite Hnil in Hf. by apply elem_of_nil in Hf.
  - intros Hall. apply elem_of_nil_inv. intros [line hits] [Hin Hel]%filter_DA_elem_of.
    by apply (Hall line hits).
Qed.

Lemma filter_DA_nil_filtered da lines lines' :
  filter_DA da lines' = [] → filter_DA (filter_DA da lines) lines' = [].
Proof.
  rewrite !filter_DA_nil. intros Hall line hits [_ Hel]%filter_DA_elem_of.
  by apply (Hall line hits).
Qed.

Lemma filtered_record_idemp data lines :
  filtered_record (filtered_record data lines) lines = filtered_record data lines.
Proof. unfold filtered_record; simpl. by rewrite filter_DA_idemp. Qed.

(** The number of distinct elements, counted on the list. *)
Lemma size_list_to_set_distinct (l : list Z) :
  size (list_to_set l : gset Z) = length (remove_dups l).
Proof.
  rewrite <-(size_list_to_set (C:=gset Z) (remove_dups l))
    by apply NoDup_remove_dups.
  f_equal. apply set_eq. intros x.
  by rewrite !elem_of_list_to_set, elem_of_remove_dups.
Qed.

Lemma stored_for_not_key r cd cs :
  dict_get r cd = None → stored_for r cd cs = None.
Proof. intros Hget. apply stored_for_None. intros ???. by rewrite Hget. Qed.

(** A stored record comes from the last entry of the change set that
    matches the key and keeps a line. *)
Lemma stored_for_Some_last r cd cs rec :
  stored_for r cd cs = Some rec →
  ∃ pre file lines post data,
    cs = pre ++ (file, lines) :: post ∧ Str.str_in cd file = true ∧
    dict_get r cd = Some data ∧ filter_DA (DA data) lines ≠ [] ∧
    (∀ file' lines', (file', lines') ∈ post → Str.str_in cd file' = true →
                     filter_DA (DA data) lines' = []) ∧
    rec = filtered_record data lines.
Proof.
  induction cs as [|[file lines] cs IH] using rev_ind; [done|].
  rewrite stored_for_snoc.
  destruct (Str.str_in cd file) eqn:Hin.
  - destruct (dict_get r cd) as [data|] eqn:Hget.
    + destruct (filter_DA (DA data) lines) as [|p da] eqn:Hda.
      * unfold match_step. rewrite Hin, Hget, Hda.
        intros (pre & f & l & post & d & -> & Hf & Hd & Hne & Hpost & ->)%IH.
        exists pre, f, l, (post ++ [(file, lines)]), d.
        rewrite <-app_assoc. split_and!; try done.
        intros f' l' [Hel|Hel%list_elem_of_singleton]%elem_of_app Hf'.
        -- by apply Hpost with f'.
        -- injection Hel as -> ->. congruence.
      * unfold match_step. rewrite Hin, Hget, Hda. intros [= <-].
        exists cs, file, lines, [], data. rewrite Hda.
        split_and!; try done. by intros ?? ?%elem_of_nil.
    + unfold match_step. rewrite Hin, Hget. by rewrite stored_for_not_key.
  - unfold match_step. rewrite Hin.
    intros (pre & f & l & post & d & -> & Hf & Hd & Hne & Hpost & ->)%IH.
    exists pre, f, l, (post ++ [(file, lines)]), d.
    rewrite <-app_assoc. split_and!; try done.
    intros f' l' [Hel|Hel%list_elem_of_singleton]%elem_of_app Hf'.
    + by apply Hpost with f'.
    + injection Hel as -> ->. congruence.
Qed.

(** When nothing is stored, no matching entry kept a line. *)
Lemma stored_for_None_inv r cd cs file lines data :
  stored_for r cd cs = None →
  (file, lines) ∈ cs → Str.str_in cd file = true →
  dict_get r cd = Some data → filter_DA (DA data) lines = [].
Proof.
  intros Hst Hel Hin Hget. revert Hst Hel.
  induction cs as [|[f l] cs IH] using rev_ind; [by intros _ ?%elem_of_nil|].
  rewrite stored_for_snoc. unfold match_step at 1. rewrite Hget.
  intros Hst [Hel|Hel%list_elem_of_singleton]%elem_of_app.
  - apply IH; [|done].
    destruct (Str.str_in cd f); [|done].
    by destruct (filter_DA (DA data) l).
  - injection Hel as <- <-. rewrite Hin in Hst.
    by destruct (filter_DA (DA data) lines).
Qed.

(** Filtering the filtered report again stores the same record. *)
Lemma stored_for_filtered r cs cd :
  stored_for (filter_lcov_by_git_diff cs r) cd cs = stored_for r cd cs.
Proof.
  destruct (stored_for r cd cs) as [rec|] eqn:Hst.
  - pose proof Hst as
      (pre & f & l & post & d & -> & Hf & Hd & Hne & Hpost & ->)%stored_for_Some_last.
    rewrite <-(filtered_record_idemp d l).
    apply stored_for_last; [done|by rewrite filter_get| |].
    + simpl. by rewrite filter_DA_idemp.
    + intros f' l' Hel Hf'. simpl.
      apply filter_DA_nil_filtered. by apply Hpost with f'.
  - apply stored_for_not_key. by rewrite filter_get.
Qed.
End filter_more.

(** ** The filter: subset, counts, dropped files, idempotence, passthrough *)

(** C1. Every record of the filtered report comes from an entry of the
    change set whose key contains the record's key: each line number of its
    [DA] list is in that entry's line set, and each of its (line, hits)
    pairs is in the [DA] list the report had for the key. *)
Theorem filtered_DA_subset (git_diff_changes : ChangeSet)
    (coverage_data : CoverageReport) (cd : string) (rec : coverage_record) :
  dict_get (filter_lcov_by_git_diff git_diff_changes coverage_data) cd = Some rec →
  ∃ file changed_lines data,
    (file, changed_lines) ∈ dict_items git_diff_changes ∧
    Str.str_in cd file = true ∧
    dict_get coverage_data cd = Some data ∧
    ∀ line hits, (line, hits) ∈ DA rec →
                 line ∈ changed_lines ∧ (line, hits) ∈ DA data.
Proof.
  rewrite filter_get.
  intros (file & lines & data & Hel & Hin & Hget & _ & ->)%stored_for_Some.
  exists file, lines, data. split_and!; try done.
  intros line hits. simpl. by rewrite filter_DA_elem_of.
Qed.

Lemma filtered_DA_subset_witness :
  dict_get (filter_lcov_by_git_diff example_changes example_report) "src/Foo.java"
  = Some example_filtered
  ∧ ∃ file changed_lines data,
      (file, changed_lines) ∈ dict_items example_changes ∧
      Str.str_in "src/Foo.java" file = true ∧
      dict_get example_report "src/Foo.java" = Some data ∧
      ∀ line hits, (line, hits) ∈ DA example_filtered →
                   line ∈ changed_lines ∧ (line, hits) ∈ DA data.
Proof.
  split; [vm_compute; reflexivity|].
  apply (filtered_DA_subset example_changes example_report).
  vm_compute; reflexivity.
Defined.

(** C2. In every record of the filtered report, [LH] is the number of
    entries of its [DA] list and [LF] is the number of distinct line
    numbers among them. *)
Theorem filtered_summary_counts (git_diff_changes : ChangeSet)
    (coverage_data : CoverageReport) (cd : string) (rec : coverage_record) :
  dict_get (filter_lcov_by_git_diff git_diff_changes coverage_data) cd = Some rec →
  LH rec = Z.of_nat (length (DA rec)) ∧
  LF rec = Z.of_nat (length (remove_dups (DA rec).*1)).
Proof.
  rewrite filter_get.
  intros (file & lines & data & _ & _ & _ & _ & ->)%stored_for_Some.
  simpl. split; [done|]. by rewrite size_list_to_set_distinct.
Qed.

Lemma filtered_summary_counts_witness :
  dict_get (filter_lcov_by_git_diff example_changes example_report) "src/Foo.java"
  = Some example_filtered
  ∧ LH example_filtered = Z.of_nat (length (DA example_filtered))
  ∧ LF example_filtered = Z.of_nat (length (remove_dups (DA example_filtered).*1)).
Proof.
  split; [vm_compute; reflexivity|].
  apply (filtered_summary_counts example_changes example_report "src/Foo.java").
  vm_compute; reflexivity.
Defined.

(** C3. A file is absent from the filtered report when, for every entry of
    the change set whose key contains the file's key, the entry's changed
    lines and the line numbers of the file's [DA] list have nothing in
    common. *)
Theorem empty_intersection_dropped (git_diff_changes : ChangeSet)
    (coverage_data : CoverageReport) (cd : string) :
  (∀ file changed_lines data,
      (file, changed_lines) ∈ dict_items git_diff_changes →
      Str.str_in cd file = true →
      dict_get coverage_data cd = Some data →
      changed_lines ∩ list_to_set (DA data).*1 = ∅) →
  cd ∉ dict_keys (filter_lcov_by_git_diff git_diff_changes coverage_data).
Proof.
  intros Hall. apply dict_get_None. rewrite filter_get.
  apply stored_for_None. intros file lines data Hel Hin Hget.
  apply filter_DA_nil. intros line hits Hda Hline.
  pose proof (Hall file lines data Hel Hin Hget) as Hempty.
  assert (Hboth : line ∈ lines ∩ list_to_set (DA data).*1).
  { apply elem_of_intersection. split; [done|].
    apply elem_of_list_to_set. by apply (list_elem_of_fmap_2 fst) in Hda. }
  rewrite Hempty in Hboth. by apply not_elem_of_empty in Hboth.
Qed.

Lemma empty_intersection_dropped_witness :
  "src/Foo.java" ∉ dict_keys (filter_lcov_by_git_diff example_changes uncovered_report).
Proof.
  apply (empty_intersection_dropped example_changes uncovered_report).
  intros file lines data [Heq|Hel%elem_of_nil]%elem_of_cons _ Hget; [|done].
  injection Heq as -> ->. injection Hget as <-.
  vm_compute; reflexivity.
Defined.

(** C4. Filtering a filtered report again against the same change set
    gives the same report: the two dicts are equal as Python compares
    dicts, holding the same record at every key, and so the same items. *)
Theorem filter_idempotent (git_diff_changes : ChangeSet)
    (coverage_data : CoverageReport) :
  let once := filter_lcov_by_git_diff git_diff_changes coverage_data in
  let twice := filter_lcov_by_git_diff git_diff_changes once in
  dict_eq twice once ∧ dict_items twice ≡ₚ dict_items once.
Proof.
  simpl.
  assert (Heq : dict_eq
    (filter_lcov_by_git_diff git_diff_changes
       (filter_lcov_by_git_diff git_diff_changes coverage_data))
    (filter_lcov_by_git_diff git_diff_changes coverage_data)).
  { intros cd. rewrite !filter_get. apply stored_for_filtered. }
  split; [done|].
  apply dict_eq_Permutation; [apply filter_wf..|done].
Qed.

(** C5. A record of the filtered report carries the [FN], [FNDA], [FNF]
    and [FNH] values of the record the report had for the same key. *)
Theorem function_fields_passthrough (git_diff_changes : ChangeSet)
    (coverage_data : CoverageReport) (cd : string) (rec : coverage_record) :
  dict_get (filter_lcov_by_git_diff git_diff_changes coverage_data) cd = Some rec →
  ∃ data, dict_get coverage_data cd = Some data ∧
          FN rec = FN data ∧ FNDA rec = FNDA data ∧
          FNF rec = FNF data ∧ FNH rec = FNH data.
Proof.
  rewrite filter_get.
  intros (file & lines & data & _ & _ & Hget & _ & ->)%stored_for_Some.
  by exists data.
Qed.

Lemma function_fields_passthrough_witness :
  dict_get (filter_lcov_by_git_diff example_changes example_report) "src/Foo.java"
  = Some example_filtered
  ∧ ∃ data, dict_get example_report "src/Foo.java" = Some data ∧
            FN example_filtered = FN data ∧ FNDA example_filtered = FNDA data ∧
            FNF example_filtered = FNF data ∧ FNH example_filtered = FNH data.
Proof.
  split; [vm_compute; reflexivity|].
  apply (function_fields_passthrough example_changes example_report "src/Foo.java").
  vm_compute; reflexivity.
Defined.

(** ** The filter: which records contribute, and which match decides *)

(** A key that is a substring of a change-set key, even the same path, does
    not contribute when none of its lines is a changed line. *)
Lemma substring_match_not_sufficient :
  ¬ contributes_iff_substring example_changes uncovered_report.
Proof.
  intros Hclaim.
  assert (Hkey : "src/Foo.java" ∈ dict_keys uncovered_report)
    by (vm_compute; left).
  apply Hclaim in Hkey as [_ Hback].
  assert (Hin : "src/Foo.java"
                ∈ dict_keys (filter_lcov_by_git_diff example_changes uncovered_report)).
  { apply Hback. exists "src/Foo.java". split; [vm_compute; left|reflexivity]. }
  vm_compute in Hin. by apply elem_of_nil in Hin.
Qed.

(** C7. A key is in the filtered report exactly when the report has a
    record for it and some entry of the change set has a key that contains
    it and a line set that contains the line number of one of the record's
    [DA] entries.  The two keys need not be equal, and a key contained in
    the path of another file matches as well. *)
Theorem contributes_iff_surviving_match (git_diff_changes : ChangeSet)
    (coverage_data : CoverageReport) (cd : string) :
  (cd ∈ dict_keys (filter_lcov_by_git_diff git_diff_changes coverage_data)
   ↔ ∃ data file changed_lines line hits,
       dict_get coverage_data cd = Some data ∧
       (file, changed_lines) ∈ dict_items git_diff_changes ∧
       Str.str_in cd file = true ∧
       (line, hits) ∈ DA data ∧ line ∈ changed_lines)
  ∧ "Foo" ∈ dict_keys (filter_lcov_by_git_diff [("src/Foo", {[ 1 ]})] Foo_report)
  ∧ "Foo" ∈ dict_keys (filter_lcov_by_git_diff [("lib/FooBar", {[ 1 ]})] Foo_report).
Proof.
  split; [|split; vm_compute; left].
  rewrite <-dict_get_is_Some, filter_get. split.
  - intros [rec (file & lines & data & Hel & Hin & Hget & Hne & _)%stored_for_Some].
    destruct (filter_DA (DA data) lines) as [|[line hits] da] eqn:Hda; [done|].
    assert (Hp : (line, hits) ∈ filter_DA (DA data) lines) by (rewrite Hda; left).
    apply filter_DA_elem_of in Hp as [Hline Hp].
    by exists data, file, lines, line, hits.
  - intros (data & file & lines & line & hits & Hget & Hel & Hin & Hp & Hline).
    destruct (stored_for coverage_data cd git_diff_changes) as [rec|] eqn:Hst; [by eexists|].
    exfalso.
    pose proof (stored_for_None_inv _ _ _ _ _ _ Hst Hel Hin Hget) as Hnil.
    by apply (proj1 (filter_DA_nil _ _) Hnil line hits).
Qed.

(** The last matching entry does not overwrite an earlier result when none
    of its lines is in the record: the record of the first match stays. *)
Lemma last_match_does_not_overwrite : ¬ last_match_decides two_matches Foo_report.
Proof.
  intros Hclaim.
  specialize (Hclaim "Foo" one_line_record [("aFoo", {[ 1 ]})] "bFoo" {[ 9 ]} []).
  assert (Hget : dict_get (filter_lcov_by_git_diff two_matches Foo_report) "Foo"
                 = Some (filtered_record one_line_record {[ 9 ]})).
  { apply Hclaim; [reflexivity|reflexivity| |reflexivity].
    by intros ?? ?%elem_of_nil. }
  vm_compute in Hget. discriminate Hget.
Qed.

(** C10. When a key of the report is a substring of several keys of the
    change set, its record in the filtered report is the one filtered
    against the last matching entry, in iteration order, that keeps at
    least one [DA] entry: a later match with no surviving entry leaves the
    stored record as it is. *)
Theorem last_surviving_match_decides (git_diff_changes : ChangeSet)
    (coverage_data : CoverageReport) (cd : string) (data : coverage_record)
    (pre post : ChangeSet) (file : string) (changed_lines : gset Z) :
  dict_items git_diff_changes = pre ++ (file, changed_lines) :: post →
  Str.str_in cd file = true →
  dict_get coverage_data cd = Some data →
  filter_DA (DA data) changed_lines ≠ [] →
  (∀ file' lines', (file', lines') ∈ post → Str.str_in cd file' = true →
                   filter_DA (DA data) lines' = []) →
  dict_get (filter_lcov_by_git_diff git_diff_changes coverage_data) cd
  = Some (filtered_record data changed_lines).
Proof.
  unfold dict_items. intros -> Hin Hget Hne Hpost.
  rewrite filter_get. by apply stored_for_last.
Qed.

Lemma last_surviving_match_decides_witness :
  dict_get (filter_lcov_by_git_diff two_matches Foo_report) "Foo"
  = Some (filtered_record one_line_record {[ 1 ]}).
Proof.
  apply (last_surviving_match_decides two_matches Foo_report "Foo" one_line_record
           [] [("bFoo", {[ 9 ]})] "aFoo" {[ 1 ]}).
  - reflexivity.
  - reflexivity.
  - reflexivity.
  - vm_compute. discriminate.
  - intros f l [Heq|Hel%elem_of_nil]%elem_of_cons _; [|done].
    injection Heq as -> ->. vm_compute; reflexivity.
Defined.

(** ** Loops in the error monad *)

Lemma for_each_app {A S} (body : S → A → result S) (xs ys : list A) (s : S) :
  for_each body (xs ++ ys) s = s' ← for_each body xs s; for_each body ys s'.
Proof.
  revert s. induction xs as [|x xs IH]; intros s; simpl; [done|].
  destruct (body s x) as [e|s']; simpl; [done|]. apply IH.
Qed.

(** ** The diff output, line by line *)

(** A line that starts with the header marker has [diff] as first field. *)
Lemma startswith_diff_git line :
  Str.startswith line "diff --git" = true → ∃ rest, Str.split line = "diff" :: rest.
Proof.
  intros H.
  do 10 (destruct line as [|? line]; [done|];
         simpl in H; case_decide as Hc; [subst|done]).
  eexists. unfold Str.split. simpl. rewrite filter_cons_True by done. done.
Qed.

Lemma diff_line_fields changes line added removed filepath :
  Str.split line = [added; removed; filepath] →
  diff_line changes line
  = if Str.isdigit added then
      n ← int_of added;
      mret (dict_set changes filepath (list_to_set (range 1 (n + 1))))
    else mret changes.
Proof.
  intros Hsplit. unfold diff_line.
  destruct (Str.startswith line "diff --git") eqn:Hdiff.
  - apply startswith_diff_git in Hdiff as [rest Hrest].
    rewrite Hsplit in Hrest. by injection Hrest as -> _.
  - by rewrite Hsplit.
Qed.

(** The only exception of the loop is the [ValueError] of [int]. *)
Lemma diff_line_error changes line e :
  diff_line changes line = inl e → e = ValueError.
Proof.
  unfold diff_line. destruct (Str.startswith line "diff --git"); [done|].
  destruct (Str.split line) as [|a [|b [|c [|??]]]]; try done.
  destruct (Str.isdigit a); [|done].
  unfold int_of. destruct (Str.int a); [done|]. by intros [= <-].
Qed.

Lemma diff_lines_error lines changes e :
  for_each diff_line lines changes = inl e → e = ValueError.
Proof.
  revert changes. induction lines as [|l lines IH]; intros changes; simpl; [done|].
  destruct (diff_line changes l) as [e'|c] eqn:Hl; simpl.
  - intros [= <-]. by apply diff_line_error in Hl.
  - apply IH.
Qed.

(** A line that does not assign [filepath] leaves its entry as it was. *)
Lemma diff_line_other changes changes' line filepath :
  (∀ a r, Str.split line = [a; r; filepath] → Str.isdigit a = false) →
  diff_line changes line = inr changes' →
  dict_get changes' filepath = dict_get changes filepath.
Proof.
  intros Hother. unfold diff_line.
  destruct (Str.startswith line "diff --git"); [by intros [= <-]|].
  destruct (Str.split line) as [|a [|b [|c [|??]]]] eqn:Hsplit;
    try by intros [= <-].
  destruct (Str.isdigit a) eqn:Hdigit; [|by intros [= <-]].
  unfold int_of. destruct (Str.int a); [|done]. simpl. intros [= <-].
  apply dict_get_set_ne. intros ->. by rewrite (Hother a b) in Hdigit.
Qed.

Lemma diff_lines_other lines changes changes' filepath :
  (∀ l a r, l ∈ lines → Str.split l = [a; r; filepath] → Str.isdigit a = false) →
  for_each diff_line lines changes = inr changes' →
  dict_get changes' filepath = dict_get changes filepath.
Proof.
  revert changes. induction lines as [|l lines IH]; intros changes Hother; simpl.
  - by intros [= <-].
  - destruct (diff_line changes l) as [e|c] eqn:Hl; simpl; [done|].
    intros Hrest. rewrite (IH c); [| |done].
    + apply (diff_line_other _ _ l); [|done].
      intros a r. apply Hother. by left.
    + intros l' a r Hel. apply Hother. by right.
Qed.

(** The loop ends without an exception when every digit count is a
    literal that [int] accepts. *)
Lemma diff_lines_succeed lines changes :
  (∀ l a r f, l ∈ lines → Str.split l = [a; r; f] → Str.isdigit a = true →
              is_Some (Str.int a)) →
  ∃ changes', for_each diff_line lines changes = inr changes'.
Proof.
  revert changes. induction lines as [|l lines IH]; intros changes Hok; simpl.
  - by eexists.
  - assert (Hl : ∃ c, diff_line changes l = inr c).
    { unfold diff_line. destruct (Str.startswith l "diff --git"); [by eexists|].
      destruct (Str.split l) as [|a [|b [|c [|??]]]] eqn:Hsplit; try by eexists.
      destruct (Str.isdigit a) eqn:Hdigit; [|by eexists].
      destruct (Hok l a b c) as [n Hn]; [by left|done..|].
      unfold int_of. rewrite Hn. by eexists. }
    destruct Hl as [c ->]. simpl. apply IH.
    intros l' a r f Hel. apply (Hok l'). by right.
Qed.

Lemma elem_of_range_set (n k : Z) :
  k ∈ (list_to_set (range 1 (n + 1)) : gset Z) ↔ 1 ≤ k ≤ n.
Proof. unfold range. rewrite elem_of_list_to_set, elem_of_seqZ. lia. Qed.

(** C6. Take a line of the diff output that splits into an added count, a
    removed count and a file path, in an output where no later line gives
    a digit count for the same path.  When the added count is the decimal
    integer [n], the change set the function returns maps the path to the
    set of the line numbers 1 to [n], and the function does return one when
    the digit counts of the other lines are decimal too.  When the added
    count is not made of digits, the result is the one of the output
    without that line. *)
Theorem numstat_line_contribution
    (subprocess_run : list string → CompletedProcess)
    (commit_id folder_path : string) (pre post : list string)
    (line added removed filepath : string) :
  let p := subprocess_run (diff_command commit_id folder_path) in
  returncode p = 0 →
  Str.splitlines (stdout p) = pre ++ line :: post →
  Str.split line = [added; removed; filepath] →
  (∀ n, Str.isdigit added = true → Str.int added = Some n →
        (∀ l a r, l ∈ post → Str.split l = [a; r; filepath] →
                  Str.isdigit a = false) →
        (∀ changes,
            get_git_diff_lines subprocess_run commit_id folder_path = inr changes →
            ∃ s, dict_get changes filepath = Some s ∧ ∀ k, k ∈ s ↔ 1 ≤ k ≤ n)
        ∧ ((∀ l a r f, l ∈ pre ++ post → Str.split l = [a; r; f] →
                       Str.isdigit a = true → is_Some (Str.int a)) →
           ∃ changes,
             get_git_diff_lines subprocess_run commit_id folder_path = inr changes))
  ∧ (Str.isdigit added = false →
     get_git_diff_lines subprocess_run commit_id folder_path
     = for_each diff_line (pre ++ post) []).
Proof.
  intros p Hrc Hlines Hsplit.
  assert (Hget : get_git_diff_lines subprocess_run commit_id folder_path
                 = c ← for_each diff_line pre [];
                   c' ← diff_line c line; for_each diff_line post c').
  { unfold get_git_diff_lines. fold (diff_command commit_id folder_path). fold p.
    rewrite Hrc. simpl. unfold parse_numstat. rewrite Hlines.
    by rewrite for_each_app. }
  rewrite Hget. split.
  - intros n Hdigit Hint Hlast. split.
    + intros changes.
      destruct (for_each diff_line pre []) as [e|c]; simpl; [done|].
      rewrite (diff_line_fields c line added removed filepath Hsplit), Hdigit.
      unfold int_of. rewrite Hint. simpl. intros Hpost.
      exists (list_to_set (range 1 (n + 1))). split; [|apply elem_of_range_set].
      rewrite (diff_lines_other post _ changes filepath Hlast Hpost).
      apply dict_get_set_eq.
    + intros Hok.
      destruct (diff_lines_succeed pre []) as [c ->].
      { intros l a r f Hel. apply (Hok l). apply elem_of_app. by left. }
      simpl. rewrite (diff_line_fields c line added removed filepath Hsplit), Hdigit.
      unfold int_of. rewrite Hint. simpl.
      apply diff_lines_succeed.
      intros l a r f Hel. apply (Hok l). apply elem_of_app. by right.
  - intros Hdigit. rewrite for_each_app.
    destruct (for_each diff_line pre []) as [e|c]; simpl; [done|].
    by rewrite (diff_line_fields c line added removed filepath Hsplit), Hdigit.
Qed.

Lemma numstat_line_contribution_witness :
  (∃ changes,
      get_git_diff_lines example_run "HEAD" "src" = inr changes ∧
      ∃ s, dict_get changes "src/Foo.java" = Some s ∧ ∀ k, k ∈ s ↔ 1 ≤ k ≤ 3)
  ∧ get_git_diff_lines example_run "HEAD" "src" = for_each diff_line [text_line] [].
Proof.
  split.
  - destruct (numstat_line_contribution example_run "HEAD" "src"
                [] [binary_line] text_line "3" "0" "src/Foo.java")
      as [Hdecimal _]; [reflexivity| vm_compute; reflexivity..|].
    destruct (Hdecimal 3) as [Hmap Hreturns]; [reflexivity|reflexivity| |].
    { intros l a r [->|[]%elem_of_nil]%elem_of_cons. vm_compute. discriminate. }
    destruct Hreturns as [changes Hchanges].
    { intros l a r f [->|[]%elem_of_nil]%elem_of_cons. vm_compute.
      intros [= <- _ _]. discriminate. }
    exists changes. split; [exact Hchanges | exact (Hmap changes Hchanges)].
  - apply (numstat_line_contribution example_run "HEAD" "src"
             [text_line] [] binary_line "-" "-" "logo.png");
      vm_compute; reflexivity.
Defined.

(** ** The failure of the diff command *)

Lemma startswith_refl s : Str.startswith s s = true.
Proof. induction s as [|c s IH]; simpl; [done|]. by rewrite decide_True. Qed.

Lemma str_in_refl s : Str.str_in s s = true.
Proof. destruct s; simpl; [done|]. by rewrite decide_True, startswith_refl. Qed.

(** A string occurs in every text that ends with it. *)
Lemma str_in_append s t : Str.str_in s (t +:+ s) = true.
Proof.
  induction t as [|c t IH]; simpl.
  - apply str_in_refl.
  - rewrite IH. apply orb_true_r.
Qed.

(** C8. [get_git_diff_lines] raises the exception of the diff command
    exactly when the command returned a non-zero status; its message ends
    with the captured error output; and [main] then stops with that
    exception and leaves every file as it was. *)
Theorem diff_command_error (subprocess_run : list string → CompletedProcess)
    (commit_id folder_path : string) :
  let p := subprocess_run (diff_command commit_id folder_path) in
  let message := "Error getting git diff: " +:+ stderr p in
  ((∃ msg, get_git_diff_lines subprocess_run commit_id folder_path
           = inl (PyException msg))
   ↔ returncode p ≠ 0)
  ∧ (returncode p ≠ 0 →
     get_git_diff_lines subprocess_run commit_id folder_path
     = inl (PyException message)
     ∧ Str.str_in (stderr p) message = true
     ∧ ∀ lcov_report_path output_lcov_path (fs : FileSystem),
         main subprocess_run commit_id folder_path lcov_report_path
              output_lcov_path fs
         = (inl (PyException message), fs)).
Proof.
  intros p message.
  assert (Hraise : returncode p ≠ 0 →
            get_git_diff_lines subprocess_run commit_id folder_path
            = inl (PyException message)).
  { intros Hrc. unfold get_git_diff_lines.
    fold (diff_command commit_id folder_path). fold p.
    by rewrite bool_decide_true. }
  split; [split|].
  - intros [msg Hget]. intros Hrc.
    unfold get_git_diff_lines in Hget.
    fold (diff_command commit_id folder_path) in Hget. fold p in Hget.
    rewrite bool_decide_false in Hget by (by intros ?).
    by apply diff_lines_error in Hget.
  - intros Hrc. exists message. by apply Hraise.
  - intros Hrc. split_and!.
    + by apply Hraise.
    + apply str_in_append.
    + intros lcov out fs. unfold main, mbind, io_bind, pure_io.
      by rewrite (Hraise Hrc).
Qed.

Lemma diff_command_error_witness :
  get_git_diff_lines failing_run "HEAD" "src"
  = inl (PyException "Error getting git diff: fatal: bad revision")
  ∧ Str.str_in "fatal: bad revision" "Error getting git diff: fatal: bad revision" = true
  ∧ ∀ lcov_report_path output_lcov_path (fs : FileSystem),
      main failing_run "HEAD" "src" lcov_report_path output_lcov_path fs
      = (inl (PyException "Error getting git diff: fatal: bad revision"), fs).
Proof.
  apply (diff_command_error failing_run "HEAD" "src"). vm_compute. discriminate.
Defined.

(** ** Directives before the first record *)

Lemma int_of_error s e : int_of s = inl e → e = ValueError.
Proof. unfold int_of. destruct (Str.int s); [done|]. by intros [= <-]. Qed.

Lemma with_record_None f st :
  current_file st = None → with_record f st = inl TypeError.
Proof. unfold with_record. by intros ->. Qed.

Lemma with_record_Some f st cf :
  current_file st = Some cf →
  ∃ st', with_record f st = inr st' ∧ current_file st' = Some cf.
Proof. unfold with_record. intros ->. by eexists. Qed.

Lemma starts_record_not_data raw :
  starts_record raw = true → data_directive raw = false.
Proof.
  unfold starts_record, data_directive.
  destruct (Str.strip raw) as [|a [|b [|c s]]]; try done;
    cbn; repeat case_decide; subst; done.
Qed.

(** Before the first record, a data directive raises. *)
Lemma parse_line_data_None st raw :
  current_file st = None → data_directive raw = true →
  ∃ e, parse_line st raw = inl e ∧ directive_error e.
Proof.
  intros Hnone Hdata.
  assert (HSF : starts_record raw = false).
  { destruct (starts_record raw) eqn:HSF; [|done].
    apply starts_record_not_data in HSF. congruence. }
  unfold parse_line. unfold starts_record in HSF. rewrite HSF.
  unfold data_directive in Hdata. unfold directive_error.
  repeat match goal with
  | |- context [if Str.startswith ?l ?p then _ else _] =>
      destruct (Str.startswith l p) eqn:?
  end; try done;
  repeat match goal with
  | |- context [from_option int_of ?d ?o] =>
      destruct o; simpl; [|eexists; split; [done|tauto]]
  | |- context [int_of ?s] =>
      let H := fresh in
      destruct (int_of s) as [?|?] eqn:H; simpl;
      [apply int_of_error in H; subst; eexists; split; [done|tauto]|]
  end;
  (rewrite with_record_None by done; eexists; split; [done|tauto]).
Qed.

(** Before the first record, a data directive with well-formed fields
    raises the [TypeError] of the missing record. *)
Lemma parse_line_data_TypeError st raw :
  current_file st = None → data_directive raw = true → accepted raw = true →
  parse_line st raw = inl TypeError.
Proof.
  intros Hnone Hdata.
  assert (HSF : starts_record raw = false).
  { destruct (starts_record raw) eqn:HSF; [|done].
    apply starts_record_not_data in HSF. congruence. }
  unfold accepted, parse_line. unfold starts_record in HSF. rewrite HSF.
  unfold data_directive in Hdata.
  repeat match goal with
  | |- context [if Str.startswith ?l ?p then _ else _] =>
      destruct (Str.startswith l p) eqn:?
  end; try done;
  repeat match goal with
  | |- context [from_option int_of ?d ?o] =>
      destruct o; simpl; [|done]
  | |- context [int_of ?s] =>
      destruct (int_of s) as [?|?]; simpl; [done|]
  end;
  (intros _; by apply with_record_None).
Qed.

(** A line that is no directive leaves the state as it is. *)
Lemma parse_line_other st raw :
  starts_record raw = false → data_directive raw = false →
  parse_line st raw = inr st.
Proof.
  unfold starts_record, data_directive, parse_line. intros -> Hdata.
  repeat (apply orb_false_elim in Hdata as [Hdata ?]).
  by repeat match goal with H : Str.startswith _ _ = false |- _ => rewrite H; clear H end.
Qed.

(** After a record was opened, no line raises a [TypeError], and a record
    stays open. *)
Lemma parse_line_Some st raw cf :
  current_file st = Some cf →
  match parse_line st raw with
  | inl e => e = ValueError ∨ e = IndexError
  | inr st' => is_Some (current_file st')
  end.
Proof.
  intros Hsome. unfold parse_line.
  repeat match goal with
  | |- context [if Str.startswith ?l ?p then _ else _] =>
      destruct (Str.startswith l p) eqn:?
  end; try (by eexists);
  repeat match goal with
  | |- context [from_option int_of ?d ?o] =>
      destruct o; simpl; [|tauto]
  | |- context [int_of ?s] =>
      let H := fresh in
      destruct (int_of s) as [?|?] eqn:H; simpl;
      [apply int_of_error in H; subst; tauto|]
  end;
  (match goal with
   | |- context [with_record ?f st] =>
       destruct (with_record_Some f st cf Hsome) as (st' & -> & ->)
   end; by eexists).
Qed.

Lemma parse_line_SF st raw :
  starts_record raw = true →
  ∃ st', parse_line st raw = inr st' ∧ is_Some (current_file st').
Proof.
  unfold starts_record, parse_line. intros ->. eexists. split; [done|]. by eexists.
Qed.

Lemma parse_lines_before_record lines pre l post st :
  lines = pre ++ l :: post →
  current_file st = None →
  data_directive l = true →
  (∀ x, x ∈ pre → starts_record x = false) →
  ∃ e, for_each parse_line lines st = inl e ∧ directive_error e.
Proof.
  intros -> Hnone Hdata. induction pre as [|x pre IH]; intros Hpre; simpl.
  - destruct (parse_line_data_None st l Hnone Hdata) as (e & -> & He).
    by exists e.
  - destruct (data_directive x) eqn:Hx.
    + destruct (parse_line_data_None st x Hnone Hx) as (e & -> & He).
      by exists e.
    + rewrite parse_line_other; [|apply Hpre; by left|done]. simpl.
      apply IH. intros y Hy. apply Hpre. by right.
Qed.

Lemma parse_lines_first_directive lines pre l post st :
  lines = pre ++ l :: post →
  current_file st = None →
  data_directive l = true → accepted l = true →
  (∀ x, x ∈ pre → starts_record x = false ∧ data_directive x = false) →
  for_each parse_line lines st = inl TypeError.
Proof.
  intros -> Hnone Hdata Hacc. induction pre as [|x pre IH]; intros Hpre; simpl.
  - by rewrite parse_line_data_TypeError.
  - destruct (Hpre x) as [HSF Hx]; [by left|].
    rewrite parse_line_other by done. simpl.
    apply IH. intros y Hy. apply Hpre. by right.
Qed.

Lemma parse_lines_open_record lines st :
  is_Some (current_file st) → for_each parse_line lines st ≠ inl TypeError.
Proof.
  revert st. induction lines as [|x lines IH]; intros st [cf Hcf]; simpl; [done|].
  pose proof (parse_line_Some st x cf Hcf) as Hline.
  destruct (parse_line st x) as [e|st']; simpl.
  - by destruct Hline as [-> | ->].
  - by apply IH.
Qed.

Lemma parse_lines_no_TypeError lines st :
  (∀ pre l post, lines = pre ++ l :: post → data_directive l = true →
                 ∃ x, x ∈ pre ∧ starts_record x = true) →
  for_each parse_line lines st ≠ inl TypeError.
Proof.
  revert st. induction lines as [|x lines IH]; intros st Hpre; simpl; [done|].
  destruct (starts_record x) eqn:HSF.
  - destruct (parse_line_SF st x HSF) as (st' & -> & Hsome). simpl.
    by apply parse_lines_open_record.
  - destruct (data_directive x) eqn:Hdata.
    + destruct (Hpre [] x lines) as (y & []%elem_of_nil & _); done.
    + rewrite parse_line_other by done. simpl. apply IH.
      intros pre l post -> Hl.
      destruct (Hpre (x :: pre) l post) as (y & [->|Hy]%elem_of_cons & HySF);
        [done..|congruence|by exists y].
Qed.

(** C9. Reading a report in which a data directive comes before the first
    [SF:] line fails: the directive is handled while there is no current
    record, and parsing ends with an exception.  For the first directive of
    the report the exception is the [TypeError] of the missing record, as
    long as its numeric fields are well formed.  When every data directive
    comes after some [SF:] line, that [TypeError] is never raised. *)
Theorem data_directive_needs_record (fs : FileSystem)
    (lcov_report_path text : string) :
  fs !! lcov_report_path = Some text →
  let lines := Str.file_lines text in
  let outcome := (parse_lcov_report lcov_report_path fs).1 in
  (∀ pre l post,
      lines = pre ++ l :: post → data_directive l = true →
      (∀ x, x ∈ pre → starts_record x = false) →
      (∃ e, outcome = inl e ∧ directive_error e)
      ∧ (accepted l = true → (∀ x, x ∈ pre → data_directive x = false) →
         outcome = inl TypeError))
  ∧ ((∀ pre l post, lines = pre ++ l :: post → data_directive l = true →
                    ∃ x, x ∈ pre ∧ starts_record x = true) →
     outcome ≠ inl TypeError).
Proof.
  intros Hfile lines. unfold parse_lcov_report. rewrite Hfile. simpl.
  fold lines. unfold parse_lcov_lines. split.
  - intros pre l post Hlines Hdata Hpre. split.
    + destruct (parse_lines_before_record lines pre l post
                  {| coverage_data := []; current_file := None |})
        as (e & -> & He); try done.
      by exists e.
    + intros Hacc Hfirst.
      rewrite (parse_lines_first_directive lines pre l post); try done.
      intros x Hx. split; [by apply Hpre|by apply Hfirst].
  - intros Hpre.
    pose proof (parse_lines_no_TypeError lines
                  {| coverage_data := []; current_file := None |} Hpre) as Hno.
    destruct (for_each parse_line lines _) as [e|st]; simpl; [congruence|done].
Qed.

Lemma data_directive_needs_record_witness :
  (parse_lcov_report "report.dat" {[ "report.dat" := headless_report ]}).1
  = inl TypeError
  ∧ (parse_lcov_report "report.dat" {[ "report.dat" := wellformed_report ]}).1
    ≠ inl TypeError.
Proof.
  split.
  - destruct (data_directive_needs_record
                {[ "report.dat" := headless_report ]} "report.dat" headless_report)
      as [Hfails _]; [vm_compute; reflexivity|].
    destruct (Hfails [] "DA:1,5" ["SF:src/Foo.java"]) as [_ HTypeError];
      [vm_compute; reflexivity..| |].
    + by intros x ?%elem_of_nil.
    + apply HTypeError; [vm_compute; reflexivity|]. by intros x ?%elem_of_nil.
  - apply (data_directive_needs_record
             {[ "report.dat" := wellformed_report ]} "report.dat" wellformed_report);
      [vm_compute; reflexivity|].
    intros pre l post Hlines Hdata.
    change (Str.file_lines wellformed_report)
      with ["SF:src/Foo.java"; "DA:1,5"; "end_of_record"] in Hlines.
    destruct pre as [|x pre]; [injection Hlines as <- _; discriminate Hdata|].
    injection Hlines as <- Hrest.
    exists "SF:src/Foo.java". split; [left|vm_compute; reflexivity].
Defined.

(** ** The pipeline on concrete inputs *)

(** Three added lines in [src/Foo.java] and a report with the lines 1, 2
    and 5: the run writes the entries of the lines 1 and 2, with [LH:2] and
    [LF:2]. *)
Example three_added_lines_scenario :
  main example_run "HEAD" "src" "coverage.dat" "filtered.dat"
       {[ "coverage.dat" := scenario_report ]}
  = (inr (), <[ "filtered.dat" := scenario_filtered ]>
               {[ "coverage.dat" := scenario_report ]}).
Proof. vm_compute; reflexivity. Qed.

(** The keys of a report filtered twice can come in another order than the
    keys of the report filtered once, although both hold the same records:
    the first pass stores [x] first and overwrites it later, the second
    pass meets the surviving lines of [x] only at the later entry. *)
Example refilter_key_order :
  dict_keys (filter_lcov_by_git_diff crossing_changes crossing_report) = ["x"; "y"]
  ∧ dict_keys (filter_lcov_by_git_diff crossing_changes
                 (filter_lcov_by_git_diff crossing_changes crossing_report))
    = ["y"; "x"].
Proof. split; vm_compute; reflexivity. Qed.

(** A path that is a key of the change set and also a substring of a later
    key is filtered against the later entry: the output keeps line 2, which
    is not among the lines the change set has for the path itself. *)
Example longer_path_overrides_own_entry :
  dict_get nested_changes "Foo.java" = Some {[ 1 ]}
  ∧ DA <$> dict_get (filter_lcov_by_git_diff nested_changes nested_report) "Foo.java"
    = Some [(1, 1); (2, 1)].
Proof. split; vm_compute; reflexivity. Qed.

(** A count made of a superscript digit passes [isdigit] and is refused by
    [int]: the function raises [ValueError] although the command succeeded. *)
Example superscript_count_ValueError :
  returncode (superscript_run []) = 0
  ∧ get_git_diff_lines superscript_run "HEAD" "src" = inl ValueError.
Proof. split; vm_compute; reflexivity. Qed.

(** * Further properties of the pipeline *)

(** ** Loops, once more *)

Lemma for_each_invariant {A S} (I : S → Prop) (body : S → A → result S)
    (xs : list A) (s s' : S) :
  I s →
  (∀ s1 x s2, x ∈ xs → I s1 → body s1 x = inr s2 → I s2) →
  for_each body xs s = inr s' → I s'.
Proof.
  revert s. induction xs as [|x xs IH]; intros s Hs Hstep; simpl.
  - by intros [= <-].
  - destruct (body s x) as [e|s1] eqn:Hx; simpl; [done|].
    apply IH.
    + apply (Hstep s x); [by left|done..].
    + intros s2 y s3 Hy. apply Hstep. by right.
Qed.


(** ** Strings: stripping and literals *)

Lemma rstrip_by_id sp s :
  Str.forallb_str (λ c, negb (sp c)) s = true → Str.rstrip_by sp s = s.
Proof.
  induction s as [|c s IH]; simpl; [done|].
  intros [Hc Hs]%andb_true_iff. rewrite IH by done.
  destruct s; [|done]. by destruct (sp c).
Qed.

Lemma lstrip_by_id sp s :
  Str.forallb_str (λ c, negb (sp c)) s = true → Str.lstrip_by sp s = s.
Proof. destruct s as [|c s]; simpl; [done|]. by destruct (sp c). Qed.

Lemma isdigit_char_not_space c :
  Str.isdigit_char c = true → Str.int_space_char c = false.
Proof. by destruct c as [[] [] [] [] [] [] [] []]. Qed.

Lemma isdigit_char_not_sign c :
  Str.isdigit_char c = true → c ≠ "+"%char ∧ c ≠ "-"%char ∧ c ≠ "_"%char.
Proof. by destruct c as [[] [] [] [] [] [] [] []]. Qed.

Lemma decimal_char_isdigit c : Str.decimal_char c = true → Str.isdigit_char c = true.
Proof. unfold Str.isdigit_char. by intros ->. Qed.

Lemma digit_value_nonneg c : Str.decimal_char c = true → 0 ≤ Str.digit_value c.
Proof.
  unfold Str.decimal_char, Str.digit_value.
  intros [H1 _]%andb_true_iff. apply Nat.leb_le in H1. lia.
Qed.

Lemma forallb_str_impl (p q : ascii → bool) s :
  (∀ c, p c = true → q c = true) →
  Str.forallb_str p s = true → Str.forallb_str q s = true.
Proof.
  intros Hpq. induction s as [|c s IH]; simpl; [done|].
  intros [Hc Hs]%andb_true_iff. by rewrite Hpq, IH.
Qed.

(** On a string of digits, [int] reads the digits as they stand. *)
Lemma int_isdigit s :
  Str.isdigit s = true → Str.int s = Str.int_digits 0 false s.
Proof.
  destruct s as [|c s]; [done|]. unfold Str.isdigit, Str.int. intros Hall.
  assert (Hsp : Str.forallb_str (λ c, negb (Str.int_space_char c)) (String c s) = true).
  { revert Hall. apply forallb_str_impl. intros c' Hc'.
    by rewrite isdigit_char_not_space. }
  rewrite lstrip_by_id, rstrip_by_id by done.
  simpl in Hall. apply andb_true_iff in Hall as [Hc _].
  apply isdigit_char_not_sign in Hc as (Hplus & Hminus & _).
  destruct c as [[] [] [] [] [] [] [] []]; done.
Qed.

Lemma int_digits_nonneg acc b s n :
  0 ≤ acc → Str.int_digits acc b s = Some n → 0 ≤ n.
Proof.
  revert acc b. induction s as [|c s IH]; intros acc b Hacc; simpl.
  - destruct b; [|done]. by intros [= <-].
  - case_bool_decide; [destruct b; [apply IH|]; done|].
    destruct (Str.decimal_char c) eqn:Hc; [|done].
    apply IH. pose proof (digit_value_nonneg c Hc). lia.
Qed.



Lemma int_isdigit_nonneg s n : Str.isdigit s = true → Str.int s = Some n → 0 ≤ n.
Proof.
  intros Hdigit. rewrite int_isdigit by done. by apply int_digits_nonneg.
Qed.

(** ** [get_git_diff_lines]: what the change set holds *)

Lemma get_git_diff_lines_inr subprocess_run commit_id folder_path changes :
  get_git_diff_lines subprocess_run commit_id folder_path = inr changes →
  returncode (subprocess_run (diff_command commit_id folder_path)) = 0
  ∧ for_each diff_line
      (Str.splitlines (stdout (subprocess_run (diff_command commit_id folder_path))))
      [] = inr changes.
Proof.
  unfold get_git_diff_lines, parse_numstat. case_bool_decide as Hrc; [done|].
  intros Hloop. split; [|done].
  destruct (decide (returncode (subprocess_run (diff_command commit_id folder_path)) = 0));
    done.
Qed.

Lemma get_git_diff_lines_zero subprocess_run commit_id folder_path :
  returncode (subprocess_run (diff_command commit_id folder_path)) = 0 →
  get_git_diff_lines subprocess_run commit_id folder_path
  = for_each diff_line
      (Str.splitlines (stdout (subprocess_run (diff_command commit_id folder_path))))
      [].
Proof.
  intros Hrc. unfold get_git_diff_lines, parse_numstat.
  rewrite bool_decide_false; [done|]. by intros ?.
Qed.

(** What a line does when it goes through. *)
Lemma diff_line_inr changes changes' line :
  diff_line changes line = inr changes' →
  changes' = changes
  ∨ ∃ added removed filepath n,
      Str.split line = [added; removed; filepath] ∧ Str.isdigit added = true ∧
      Str.int added = Some n ∧
      changes' = dict_set changes filepath (list_to_set (range 1 (n + 1))).
Proof.
  unfold diff_line. destruct (Str.startswith line "diff --git"); [intros [= <-]; by left|].
  destruct (Str.split line) as [|a [|b [|c [|??]]]] eqn:Hsplit;
    try (intros [= <-]; by left).
  destruct (Str.isdigit a) eqn:Hdigit; [|intros [= <-]; by left].
  unfold int_of. destruct (Str.int a) as [n|] eqn:Hint; [|done].
  simpl. intros [= <-]. right. by exists a, b, c, n.
Qed.


(** Every entry of the change set was assigned by a line of the diff output
    with three fields and a digit count [n], and its set is the initial
    segment of the line numbers 1 to [n]. *)
Theorem change_set_entries_are_initial_segments
    (subprocess_run : list string → CompletedProcess)
    (commit_id folder_path : string) (changes : ChangeSet)
    (filepath : string) (s : gset Z) :
  get_git_diff_lines subprocess_run commit_id folder_path = inr changes →
  dict_get changes filepath = Some s →
  ∃ line added removed n,
    line ∈ Str.splitlines (stdout (subprocess_run (diff_command commit_id folder_path))) ∧
    Str.split line = [added; removed; filepath] ∧
    Str.isdigit added = true ∧ Str.int added = Some n ∧ 0 ≤ n ∧
    ∀ k, k ∈ s ↔ 1 ≤ k ≤ n.
Proof.
  intros [_ Hloop]%get_git_diff_lines_inr. revert filepath s.
  set (lines := Str.splitlines _) in *.
  refine (for_each_invariant
            (λ c : ChangeSet, ∀ filepath s, dict_get c filepath = Some s →
               ∃ line added removed n,
                 line ∈ lines ∧ Str.split line = [added; removed; filepath] ∧
                 Str.isdigit added = true ∧ Str.int added = Some n ∧ 0 ≤ n ∧
                 ∀ k, k ∈ s ↔ 1 ≤ k ≤ n)
            diff_line lines [] changes _ _ Hloop); [done|].
  intros c1 line c2 Hline IH [->|(a & r & f & n & Hsplit & Hdigit & Hint & ->)]%diff_line_inr;
    [done|].
  intros filepath s. rewrite dict_get_set.
  destruct (decide (f = filepath)) as [->|Hne]; [|apply IH].
  intros [= <-]. exists line, a, r, n. split_and!; try done.
  - by apply (int_isdigit_nonneg a).
  - apply elem_of_range_set.
Qed.

Lemma change_set_entries_are_initial_segments_witness :
  ∃ line added removed n,
    line ∈ Str.splitlines (stdout (example_run (diff_command "HEAD" "src"))) ∧
    Str.split line = [added; removed; "src/Foo.java"] ∧
    Str.isdigit added = true ∧ Str.int added = Some n ∧ 0 ≤ n ∧
    ∀ k, k ∈ (list_to_set (range 1 4) : gset Z) ↔ 1 ≤ k ≤ n.
Proof.
  apply (change_set_entries_are_initial_segments example_run "HEAD" "src"
           [("src/Foo.java", list_to_set (range 1 4))]);
    vm_compute; reflexivity.
Defined.

(** A line of the diff output that does not split into exactly three fields,
    such as the line of a path with a blank in it, is skipped: the result
    is the one of the output without that line. *)
Theorem line_without_three_fields_is_skipped
    (subprocess_run : list string → CompletedProcess)
    (commit_id folder_path : string) (pre post : list string) (line : string) :
  let p := subprocess_run (diff_command commit_id folder_path) in
  returncode p = 0 →
  Str.splitlines (stdout p) = pre ++ line :: post →
  length (Str.split line) ≠ 3%nat →
  get_git_diff_lines subprocess_run commit_id folder_path
  = for_each diff_line (pre ++ post) [].
Proof.
  intros p Hrc Hlines Hlen. rewrite get_git_diff_lines_zero by done.
  fold p. rewrite Hlines, !for_each_app.
  destruct (for_each diff_line pre []) as [e|c]; simpl; [done|].
  assert (Hskip : diff_line c line = inr c).
  { unfold diff_line. destruct (Str.startswith line "diff --git"); [done|].
    by destruct (Str.split line) as [|a [|b [|d [|??]]]]. }
  by rewrite Hskip.
Qed.

Lemma line_without_three_fields_is_skipped_witness :
  get_git_diff_lines spaced_path_run "HEAD" "src" = for_each diff_line [text_line] [].
Proof.
  apply (line_without_three_fields_is_skipped spaced_path_run "HEAD" "src"
           [text_line] [] spaced_path_line); vm_compute; (reflexivity || discriminate).
Defined.


(** ** [parse_lcov_report]: the loop, line by line *)

Section dict_update_facts.
Context {V : Type}.
Implicit Types (d : dict V) (k : string) (f : V → V).

Lemma dict_keys_update f k d : dict_keys (dict_update f k d) = dict_keys d.
Proof.
  unfold dict_keys. induction d as [|[k' v] d IH]; csimpl; [done|].
  destruct (decide (k' = k)); csimpl; [done|]. by rewrite IH.
Qed.

Lemma dict_get_update f k k' d :
  dict_get (dict_update f k d) k'
  = if decide (k = k') then f <$> dict_get d k' else dict_get d k'.
Proof.
  induction d as [|[k0 v] d IH]; simpl; [by destruct (decide (k = k'))|].
  destruct (decide (k0 = k)) as [->|Hk0]; simpl.
  - by destruct (decide (k = k')).
  - rewrite IH. destruct (decide (k0 = k')) as [->|Hk0']; [|done].
    by rewrite decide_False by congruence.
Qed.
End dict_update_facts.

(** A line other than [SF:] acts through the current record only. *)
Lemma parse_line_effect st raw :
  starts_record raw = false →
  parse_line st raw
  = o ← directive_effect raw;
    match o with
    | Some f => with_record f st
    | None => mret st
    end.
Proof.
  unfold starts_record, parse_line, directive_effect. intros ->.
  repeat match goal with
  | |- context [if Str.startswith ?l ?p then _ else _] =>
      destruct (Str.startswith l p)
  end; try done;
  repeat match goal with
  | |- context [from_option int_of ?d ?o] => destruct o; simpl; [|done]
  | |- context [int_of ?s] => destruct (int_of s) as [?|?]; simpl; [done|]
  end; done.
Qed.

Lemma parse_line_start st raw :
  starts_record raw = true →
  parse_line st raw
  = inr {| coverage_data := dict_set (coverage_data st) (record_path raw) new_record;
           current_file := Some (record_path raw) |}.
Proof. unfold starts_record, parse_line. by intros ->. Qed.

Lemma directive_effect_None raw :
  data_directive raw = false → directive_effect raw = inr None.
Proof.
  unfold data_directive, directive_effect. intros Hdata.
  repeat (apply orb_false_elim in Hdata as [Hdata ?]).
  by repeat match goal with H : Str.startswith _ _ = false |- _ => rewrite H; clear H end.
Qed.

Lemma directive_effect_data raw :
  data_directive raw = true → directive_effect raw ≠ inr None.
Proof.
  unfold data_directive, directive_effect.
  repeat match goal with
  | |- context [if Str.startswith ?l ?p then _ else _] =>
      destruct (Str.startswith l p)
  end; try done;
  repeat match goal with
  | |- context [from_option int_of ?d ?o] => destruct o; simpl; [|done]
  | |- context [int_of ?s] => destruct (int_of s) as [?|?]; simpl; [done|]
  end; done.
Qed.

(** A data directive is accepted exactly when its own fields are read
    without an exception. *)
Lemma accepted_effect raw :
  starts_record raw = false →
  accepted raw = true ↔ ∃ o, directive_effect raw = inr o.
Proof.
  intros HSF. unfold accepted. rewrite parse_line_effect by done.
  destruct (directive_effect raw) as [e|[f|]]; simpl.
  - split; [done|by intros [? ?]].
  - split; [by eexists|done].
  - split; [by eexists|done].
Qed.

(** A line that is neither a [SF:] line nor one of the seven data
    directives ([end_of_record], branch data, a blank line, ...) is not
    read: the report parses as it does without that line. *)
Theorem other_lines_are_not_read (pre post : list string) (l : string) :
  starts_record l = false → data_directive l = false →
  parse_lcov_lines (pre ++ l :: post) = parse_lcov_lines (pre ++ post).
Proof.
  intros HSF Hdata. unfold parse_lcov_lines. rewrite !for_each_app. simpl.
  destruct (for_each parse_line pre _) as [e|st]; simpl; [done|].
  by rewrite parse_line_other.
Qed.

Lemma other_lines_are_not_read_witness :
  parse_lcov_lines marked_lines = parse_lcov_lines ["SF:src/Foo.java"; "DA:1,5"].
Proof.
  etrans.
  - apply (other_lines_are_not_read ["SF:src/Foo.java"; "DA:1,5"; "BRDA:1,0,0,1"] []
             "end_of_record"); vm_compute; reflexivity.
  - apply (other_lines_are_not_read ["SF:src/Foo.java"; "DA:1,5"] [] "BRDA:1,0,0,1");
      vm_compute; reflexivity.
Defined.

(** With a record open, the loop goes through exactly when every data
    directive is accepted. *)
Lemma parse_lines_open_succeeds lines st :
  is_Some (current_file st) →
  (∃ st', for_each parse_line lines st = inr st')
  ↔ ∀ l, l ∈ lines → data_directive l = true → accepted l = true.
Proof.
  revert st. induction lines as [|x lines IH]; intros st Hopen; simpl.
  - split; [by intros _ ? ?%elem_of_nil|by eexists].
  - destruct (starts_record x) eqn:HSF.
    + rewrite parse_line_start by done. simpl. rewrite IH by by eexists.
      apply starts_record_not_data in HSF as Hx. split.
      * intros Hall l [->|Hl]%elem_of_cons; [congruence|by apply Hall].
      * intros Hall l Hl. apply Hall. by right.
    + rewrite parse_line_effect by done.
      destruct (data_directive x) eqn:Hx.
      * pose proof (accepted_effect x HSF) as Hacc.
        pose proof (directive_effect_data x Hx) as Hnone.
        destruct (directive_effect x) as [e|[f|]]; simpl; [| |done].
        -- split; [by intros [? ?]|]. intros Hall.
           assert (accepted x = true) as [? ?]%Hacc by (apply Hall; [by left|done]).
           done.
        -- destruct Hopen as [cf Hcf].
           destruct (with_record_Some f st cf Hcf) as (st1 & -> & Hcf1). simpl.
           rewrite IH by by eexists. split.
           ++ intros Hall l [->|Hl]%elem_of_cons; [|by apply Hall].
              intros _. apply Hacc. by eexists.
           ++ intros Hall l Hl. apply Hall. by right.
      * rewrite directive_effect_None by done. simpl. rewrite IH by done. split.
        -- intros Hall l [->|Hl]%elem_of_cons; [congruence|by apply Hall].
        -- intros Hall l Hl. apply Hall. by right.
Qed.

(** The parser returns a report exactly when every data directive has
    well-formed fields and comes after some [SF:] line. *)
Theorem parse_succeeds_iff (lines : list string) :
  (∃ r, parse_lcov_lines lines = inr r)
  ↔ (∀ l, l ∈ lines → data_directive l = true → accepted l = true)
    ∧ (∀ pre l post, lines = pre ++ l :: post → data_directive l = true →
                     ∃ x, x ∈ pre ∧ starts_record x = true).
Proof.
  unfold parse_lcov_lines.
  assert (Hloop : ∀ st,
    (∃ r, (st' ← for_each parse_line lines st; mret (coverage_data st')) = inr r)
    ↔ ∃ st', for_each parse_line lines st = inr st').
  { intros st. destruct (for_each parse_line lines st) as [e|st']; simpl.
    - split; by intros [? ?].
    - split; by eexists. }
  rewrite Hloop. clear Hloop.
  cut (∀ st, current_file st = None →
    (∃ st', for_each parse_line lines st = inr st')
    ↔ (∀ l, l ∈ lines → data_directive l = true → accepted l = true)
      ∧ (∀ pre l post, lines = pre ++ l :: post → data_directive l = true →
                       ∃ x, x ∈ pre ∧ starts_record x = true)).
  { intros Hclosed. by apply Hclosed. }
  induction lines as [|x lines IH]; intros st Hnone; simpl.
  - split; [intros _|by eexists]. split; [by intros ? ?%elem_of_nil|].
    by intros [] ???.
  - destruct (starts_record x) eqn:HSF.
    + rewrite parse_line_start by done. simpl.
      rewrite parse_lines_open_succeeds by by eexists.
      apply starts_record_not_data in HSF as Hx. split.
      * intros Hall. split.
        -- intros l [->|Hl]%elem_of_cons; [congruence|by apply Hall].
        -- intros [|y pre] l post [= <- Hrest] Hl; [congruence|].
           exists x. split; [by left|done].
      * intros [Hall _] l Hl. apply Hall. by right.
    + destruct (data_directive x) eqn:Hx.
      * destruct (parse_line_data_None st x Hnone Hx) as (e & -> & _). simpl.
        split; [by intros [? ?]|]. intros [_ Hpre].
        by destruct (Hpre [] x lines) as (y & []%elem_of_nil & _).
      * rewrite parse_line_other by done. simpl. rewrite IH by done. split.
        -- intros [Hall Hpre]. split.
           ++ intros l [->|Hl]%elem_of_cons; [congruence|by apply Hall].
           ++ intros [|y pre] l post [= <- Hrest] Hl; [congruence|].
              destruct (Hpre pre l post) as (z & Hz & HzSF); [done..|].
              exists z. split; [by right|done].
        -- intros [Hall Hpre]. split.
           ++ intros l Hl. apply Hall. by right.
           ++ intros pre l post -> Hl.
              destruct (Hpre (x :: pre) l post) as (z & [->|Hz]%elem_of_cons & HzSF);
                [done..|congruence|by exists z].
Qed.

(** How one line changes the keys of the report under construction. *)
Lemma parse_line_keys st st' raw :
  parse_line st raw = inr st' →
  (starts_record raw = true ∧
   coverage_data st' = dict_set (coverage_data st) (record_path raw) new_record ∧
   current_file st' = Some (record_path raw))
  ∨ (starts_record raw = false ∧
     dict_keys (coverage_data st') = dict_keys (coverage_data st) ∧
     current_file st' = current_file st).
Proof.
  destruct (starts_record raw) eqn:HSF.
  - rewrite parse_line_start by done. intros [= <-]. by left.
  - rewrite parse_line_effect by done. intros Hline. right. split; [done|].
    destruct (directive_effect raw) as [e|[f|]]; simpl in Hline;
      [done| |by injection Hline as <-].
    unfold with_record in Hline.
    destruct (current_file st) as [cf|] eqn:Hcf; [|done].
    injection Hline as <-. simpl. by rewrite dict_keys_update.
Qed.

Lemma parse_lines_keys lines st st' :
  for_each parse_line lines st = inr st' →
  dict_wf (coverage_data st) →
  dict_wf (coverage_data st')
  ∧ ∀ k, k ∈ dict_keys (coverage_data st')
         ↔ k ∈ dict_keys (coverage_data st)
           ∨ ∃ l, l ∈ lines ∧ starts_record l = true ∧ k = record_path l.
Proof.
  revert st. induction lines as [|x lines IH]; intros st; simpl.
  - intros [= <-] Hwf. split; [done|]. intros k. split; [by left|].
    by intros [?|(? & []%elem_of_nil & _)].
  - destruct (parse_line st x) as [e|st1] eqn:Hx; simpl; [done|].
    intros Hrest Hwf.
    apply parse_line_keys in Hx as [(HSF & Hcd & _)|(HSF & Hkeys & _)].
    + destruct (IH st1 Hrest) as [Hwf' Hk]; [rewrite Hcd; by apply dict_wf_set|].
      split; [done|]. intros k. rewrite Hk, Hcd, dict_keys_set.
      destruct (decide (record_path x ∈ dict_keys (coverage_data st))) as [Hin|Hin].
      * split.
        -- intros [?|(l & Hl & ?)]; [by left|]. right. exists l. split; [by right|done].
        -- intros [?|(l & [->|Hl]%elem_of_cons & HlSF & ->)]; [by left|by left|].
           right. by exists l.
      * rewrite elem_of_app, list_elem_of_singleton. split.
        -- intros [[?| ->]|(l & Hl & ?)]; [by left| |].
           ++ right. exists x. split; [by left|done].
           ++ right. exists l. split; [by right|done].
        -- intros [?|(l & [->|Hl]%elem_of_cons & HlSF & ->)];
             [by left; left|by left; right|].
           right. by exists l.
    + destruct (IH st1 Hrest) as [Hwf' Hk]; [unfold dict_wf; by rewrite Hkeys|].
      split; [done|]. intros k. rewrite Hk, Hkeys. split.
      * intros [?|(l & Hl & ?)]; [by left|]. right. exists l. split; [by right|done].
      * intros [?|(l & [->|Hl]%elem_of_cons & HlSF & ->)]; [by left|congruence|].
        right. by exists l.
Qed.

(** The keys of a parsed report are the paths of its [SF:] lines, each
    once. *)
Theorem parsed_keys_are_the_SF_paths (lines : list string) (r : CoverageReport) :
  parse_lcov_lines lines = inr r →
  dict_wf r
  ∧ ∀ k, k ∈ dict_keys r
         ↔ ∃ l, l ∈ lines ∧ starts_record l = true ∧ k = record_path l.
Proof.
  unfold parse_lcov_lines.
  destruct (for_each parse_line lines _) as [e|st] eqn:Hloop; simpl; [done|].
  intros [= <-]. apply parse_lines_keys in Hloop as [Hwf Hk]; [|apply NoDup_nil_2].
  split; [done|]. intros k. rewrite Hk. split; [|by right].
  by intros [[]%elem_of_nil|?].
Qed.

Lemma parsed_keys_are_the_SF_paths_witness :
  dict_wf [("src/Foo.java",
            {| DA := [(7, 1)]; FN := []; FNDA := []; FNF := 0; FNH := 0;
               LH := 0; LF := 0 |})]
  ∧ ∀ k, k ∈ dict_keys [("src/Foo.java",
                         {| DA := [(7, 1)]; FN := []; FNDA := []; FNF := 0;
                            FNH := 0; LH := 0; LF := 0 |})]
         ↔ ∃ l, l ∈ repeated_lines ∧ starts_record l = true ∧ k = record_path l.
Proof.
  apply (parsed_keys_are_the_SF_paths repeated_lines). vm_compute; reflexivity.
Defined.

(** Two runs of the loop that agree on the current file and on the record
    of [cf] keep agreeing, as long as no line opens [cf] again. *)
Lemma parse_lines_agree cf lines st1 st2 st1' :
  (∀ x, x ∈ lines → starts_record x = true → record_path x ≠ cf) →
  current_file st1 = current_file st2 →
  dict_get (coverage_data st1) cf = dict_get (coverage_data st2) cf →
  for_each parse_line lines st1 = inr st1' →
  ∃ st2', for_each parse_line lines st2 = inr st2'
          ∧ dict_get (coverage_data st1') cf = dict_get (coverage_data st2') cf.
Proof.
  revert st1 st2. induction lines as [|x lines IH]; intros st1 st2 Hno Hcur Hget; simpl.
  - intros [= <-]. by exists st2.
  - destruct (starts_record x) eqn:HSF.
    + rewrite !parse_line_start by done. simpl. apply IH.
      * intros y Hy. apply Hno. by right.
      * done.
      * simpl. rewrite !dict_get_set_ne; [done|apply Hno; [by left|done]..].
    + rewrite !parse_line_effect by done.
      destruct (directive_effect x) as [e|[f|]]; simpl; [done| |].
      * unfold with_record. rewrite <-Hcur.
        destruct (current_file st1) as [c|]; simpl; [|done].
        apply IH.
        -- intros y Hy. apply Hno. by right.
        -- done.
        -- simpl. rewrite !dict_get_update. by rewrite Hget.
      * apply IH; [|done..]. intros y Hy. apply Hno. by right.
Qed.

(** The record of a path holds what the lines after the last [SF:] line of
    that path put in it: what an earlier section of the same path held is
    dropped, not merged. *)
Theorem record_starts_at_the_last_SF_line (pre post : list string) (l : string)
    (r : CoverageReport) :
  starts_record l = true →
  (∀ x, x ∈ post → starts_record x = true → record_path x ≠ record_path l) →
  parse_lcov_lines (pre ++ l :: post) = inr r →
  ∃ r', parse_lcov_lines (l :: post) = inr r'
        ∧ dict_get r (record_path l) = dict_get r' (record_path l).
Proof.
  intros HSF Hlast. unfold parse_lcov_lines. rewrite for_each_app. simpl.
  destruct (for_each parse_line pre _) as [e|st0]; simpl; [done|].
  rewrite !parse_line_start by done. simpl.
  destruct (for_each parse_line post _) as [e|st1] eqn:Hpost; simpl; [done|].
  intros [= <-].
  eapply (parse_lines_agree (record_path l)) in Hpost as (st2 & -> & Hagree);
    [by eexists|done|done|].
  simpl. by rewrite dict_get_set_eq, decide_True.
Qed.

Lemma record_starts_at_the_last_SF_line_witness :
  ∃ r', parse_lcov_lines ["SF:src/Foo.java"; "DA:7,1"] = inr r'
        ∧ Some {| DA := [(7, 1)]; FN := []; FNDA := []; FNF := 0; FNH := 0;
                  LH := 0; LF := 0 |}
          = dict_get r' "src/Foo.java".
Proof.
  apply (record_starts_at_the_last_SF_line
           ["SF:src/Foo.java"; "DA:1,5"; "FNF:2"] ["DA:7,1"] "SF:src/Foo.java"
           [("src/Foo.java",
             {| DA := [(7, 1)]; FN := []; FNDA := []; FNF := 0; FNH := 0;
                LH := 0; LF := 0 |})]).
  - vm_compute; reflexivity.
  - intros x [->|[]%elem_of_nil]%elem_of_cons. vm_compute. discriminate.
  - vm_compute; reflexivity.
Defined.

(** ** [filter_lcov_by_git_diff]: entries without effect, and what is stored *)

Lemma inner_loop_noop r file lines ks acc :
  (∀ cd data, cd ∈ ks → Str.str_in cd file = true → dict_get r cd = Some data →
              filter_DA (DA data) lines = []) →
  foldl (filter_step r file lines) acc ks = acc.
Proof.
  revert acc. induction ks as [|k ks IH]; intros acc Hnone; simpl; [done|].
  assert (Hk : filter_step r file lines acc k = acc).
  { unfold filter_step. destruct (Str.str_in k file) eqn:Hin; [|done].
    destruct (dict_get r k) as [data|] eqn:Hget; [|done].
    rewrite (Hnone k data); [done|by left|done..]. }
  rewrite Hk. apply IH. intros cd data Hcd. apply Hnone. by right.
Qed.

(** An entry of the change set that keeps no line of any record whose key
    it contains (a file unknown to the report among them) can be left out:
    the filtered report is the same, in contents and in order. *)
Theorem entry_without_surviving_line_changes_nothing (pre post : ChangeSet)
    (file : string) (changed_lines : gset Z) (coverage_data : CoverageReport) :
  (∀ cd data, Str.str_in cd file = true → dict_get coverage_data cd = Some data →
              filter_DA (DA data) changed_lines = []) →
  filter_lcov_by_git_diff (pre ++ (file, changed_lines) :: post) coverage_data
  = filter_lcov_by_git_diff (pre ++ post) coverage_data.
Proof.
  intros Hnone. unfold filter_lcov_by_git_diff, dict_items.
  rewrite !foldl_app. simpl. f_equal.
  apply inner_loop_noop. intros cd data _. apply Hnone.
Qed.

Lemma entry_without_surviving_line_changes_nothing_witness :
  filter_lcov_by_git_diff changes_with_stranger example_report
  = filter_lcov_by_git_diff example_changes example_report.
Proof.
  apply (entry_without_surviving_line_changes_nothing
           [] example_changes "docs/README.md" (list_to_set (range 1 10))
           example_report).
  intros cd data Hin Hget.
  destruct (decide (cd = "src/Foo.java")) as [->|Hne]; [discriminate Hin|].
  unfold example_report in Hget. simpl in Hget.
  by rewrite decide_False in Hget.
Defined.

Lemma length_remove_dups_le (l : list Z) : (length (remove_dups l) ≤ length l)%nat.
Proof.
  induction l as [|x l IH]; simpl; [done|]. case_decide; simpl; lia.
Qed.

(** A record of the filtered report holds at least one [DA] entry, in the
    order of the parsed report and with the same hit counts, and its
    counts satisfy 1 ≤ [LF] ≤ [LH]: [LH] counts the entries whatever their
    hit count is. *)
Theorem stored_record_is_a_nonempty_selection (git_diff_changes : ChangeSet)
    (coverage_data : CoverageReport) (cd : string) (rec : coverage_record) :
  dict_get (filter_lcov_by_git_diff git_diff_changes coverage_data) cd = Some rec →
  DA rec ≠ []
  ∧ (∃ data, dict_get coverage_data cd = Some data ∧ DA rec `sublist_of` DA data)
  ∧ 1 ≤ LF rec ≤ LH rec.
Proof.
  rewrite filter_get.
  intros (file & lines & data & _ & _ & Hget & Hne & ->)%stored_for_Some.
  simpl. split_and!; [done| | |].
  - exists data. split; [done|]. apply sublist_filter.
  - rewrite size_list_to_set_distinct.
    destruct (filter_DA (DA data) lines) as [|[line hits] da]; [done|].
    assert (Hin : line ∈ remove_dups ((line, hits) :: da).*1)
      by (apply elem_of_remove_dups; left).
    destruct (remove_dups _) as [|??]; [by apply elem_of_nil in Hin|]. simpl. lia.
  - rewrite size_list_to_set_distinct.
    pose proof (length_remove_dups_le (filter_DA (DA data) lines).*1) as Hle.
    rewrite length_fmap in Hle. lia.
Qed.

Lemma stored_record_is_a_nonempty_selection_witness :
  DA example_filtered ≠ []
  ∧ (∃ data, dict_get example_report "src/Foo.java" = Some data
             ∧ DA example_filtered `sublist_of` DA data)
  ∧ 1 ≤ LF example_filtered ≤ LH example_filtered.
Proof.
  apply (stored_record_is_a_nonempty_selection example_changes example_report
           "src/Foo.java").
  vm_compute; reflexivity.
Defined.

Lemma filter_empty_report cs : filter_lcov_by_git_diff cs [] = [].
Proof.
  unfold filter_lcov_by_git_diff, dict_items, dict_keys. simpl.
  induction cs as [|[file lines] cs IH]; simpl; [done|]. apply IH.
Qed.

(** The filtered report is a dict without a repeated key, each of its keys
    is a key of the parsed report, and it is empty when the change set or
    the parsed report is empty. *)
Theorem filtered_keys_come_from_the_report (git_diff_changes : ChangeSet)
    (coverage_data : CoverageReport) :
  dict_wf (filter_lcov_by_git_diff git_diff_changes coverage_data)
  ∧ (∀ cd, cd ∈ dict_keys (filter_lcov_by_git_diff git_diff_changes coverage_data) →
           cd ∈ dict_keys coverage_data)
  ∧ filter_lcov_by_git_diff [] coverage_data = []
  ∧ filter_lcov_by_git_diff git_diff_changes [] = [].
Proof.
  split_and!; [apply filter_wf| |done|apply filter_empty_report].
  intros cd [rec Hrec]%dict_get_is_Some. apply dict_get_is_Some.
  rewrite filter_get in Hrec.
  apply stored_for_Some in Hrec as (_ & _ & data & _ & _ & Hget & _).
  by exists data.
Qed.

(** ** Strings: appending, reversing, printing integers *)

Lemma str_app_cons a s t : String a s +:+ t = String a (s +:+ t).
Proof. reflexivity. Qed.

Lemma app_nil_l_str t : "" +:+ t = t.
Proof. reflexivity. Qed.

Lemma app_nil_r_str s : s +:+ "" = s.
Proof. induction s as [|a s IH]; [done|]. by rewrite str_app_cons, IH. Qed.

Lemma app_assoc_str s t u : (s +:+ t) +:+ u = s +:+ t +:+ u.
Proof. induction s as [|a s IH]; [done|]. by rewrite !str_app_cons, IH. Qed.

Lemma forallb_str_app p s t :
  Str.forallb_str p (s +:+ t) = Str.forallb_str p s && Str.forallb_str p t.
Proof.
  induction s as [|a s IH]; [done|]. rewrite str_app_cons. simpl.
  by rewrite IH, andb_assoc.
Qed.

Lemma rev_rev_app s cur t :
  String.rev_app (String.rev_app s cur) t = String.rev_app cur (s +:+ t).
Proof.
  revert cur. induction s as [|a s IH]; intros cur; [done|].
  simpl. by rewrite IH.
Qed.

Lemma rev_pushed s : String.rev (String.rev_app s "") = s.
Proof. unfold String.rev. rewrite rev_rev_app. simpl. apply app_nil_r_str. Qed.

(** The digit that [str] prints for a value below ten. *)
Lemma pretty_N_char_digit (y : N) :
  (y < 10)%N →
  Str.decimal_char (pretty_N_char y) = true
  ∧ Str.digit_value (pretty_N_char y) = Z.of_N y
  ∧ pretty_N_char y ≠ "_"%char.
Proof.
  intros Hy.
  assert (y = 0 ∨ y = 1 ∨ y = 2 ∨ y = 3 ∨ y = 4 ∨ y = 5 ∨ y = 6 ∨ y = 7
          ∨ y = 8 ∨ y = 9)%N as Hcases by lia.
  repeat destruct Hcases as [->|Hcases]; try subst y; done.
Qed.

(** The digits [str] prints for a positive number: they are decimal, and
    [int] reads them back as that number. *)
Lemma pretty_N_go_digits (x : N) :
  ∃ ds k,
    (∀ t, pretty_N_go x t = ds +:+ t)
    ∧ Str.forallb_str Str.decimal_char ds = true
    ∧ ((0 < x)%N → ds ≠ ""
       ∧ ∀ acc b t, Str.int_digits acc b (ds +:+ t)
                    = Str.int_digits (acc * 10 ^ k + Z.of_N x) true t)
    ∧ 0 ≤ k ∧ (x = 0%N → k = 0).
Proof.
  induction (N.lt_wf_0 x) as [x _ IH].
  assert (x = 0 ∨ 0 < x)%N as [->|Hpos] by lia.
  - exists "", 0. split_and!; [|done|intros ?; lia|done|done].
    intros t. by rewrite pretty_N_go_0.
  - destruct (IH (x `div` 10)%N) as (ds & k & Hgo & Hdec & Hint & Hk & Hk0);
      [by apply N.div_lt|].
    destruct (pretty_N_char_digit (x `mod` 10)%N) as (Hd & Hv & Hu);
      [by apply N.mod_lt|].
    exists (ds +:+ String (pretty_N_char (x `mod` 10)) ""), (k + 1).
    split_and!.
    + intros t. rewrite pretty_N_go_step, Hgo by done. by rewrite app_assoc_str.
    + rewrite forallb_str_app, Hdec. simpl. by rewrite Hd.
    + intros _. split.
      * destruct ds; [done|by rewrite str_app_cons].
      * intros acc b t. rewrite app_assoc_str, str_app_cons, app_nil_l_str.
        assert (Hstep : ∀ a c, Str.int_digits a c
                                 (String (pretty_N_char (x `mod` 10)) t)
                               = Str.int_digits (10 * a + Z.of_N (x `mod` 10)) true t).
        { intros a c. simpl. by rewrite bool_decide_false, Hd, Hv by done. }
        assert (Hx : Z.of_N x = 10 * Z.of_N (x `div` 10) + Z.of_N (x `mod` 10)).
        { assert (Hdm : (x = 10 * x `div` 10 + x `mod` 10)%N)
            by (apply N.div_mod; lia).
          rewrite Hdm at 1. rewrite N2Z.inj_add, N2Z.inj_mul. done. }
        destruct (N.eq_0_gt_0_cases (x `div` 10)) as [Hzero|Hdiv].
        -- assert (ds = "") as ->.
           { specialize (Hgo ""). rewrite Hzero, pretty_N_go_0 in Hgo.
             by rewrite app_nil_r_str in Hgo. }
           rewrite (Hk0 Hzero), app_nil_l_str, Hstep. f_equal.
           rewrite Hx, Hzero. simpl. lia.
        -- destruct (Hint Hdiv) as [_ Hread]. rewrite Hread, Hstep. f_equal.
           rewrite Hx, Z.pow_add_r by lia. lia.
    + lia.
    + lia.
Qed.

Lemma numeral_char_plain c :
  numeral_char c = true →
  Str.int_space_char c = false ∧ Str.isspace_char c = false
  ∧ c ≠ ","%char ∧ c ≠ "010"%char ∧ c ≠ "013"%char.
Proof. by destruct c as [[] [] [] [] [] [] [] []]. Qed.

Lemma decimal_char_numeral c : Str.decimal_char c = true → numeral_char c = true.
Proof. unfold numeral_char. by intros ->. Qed.

(** [str] prints an optional minus sign and decimal digits. *)
Lemma str_numeral n : Str.forallb_str numeral_char (Str.str n) = true.
Proof.
  unfold Str.str, pretty, pretty_Z.
  assert (Hpos : ∀ p : positive, Str.forallb_str numeral_char (pretty p) = true).
  { intros p. unfold pretty, pretty_positive, pretty, pretty_N.
    rewrite decide_False by done.
    destruct (pretty_N_go_digits (N.pos p)) as (ds & k & Hgo & Hdec & _).
    rewrite Hgo, app_nil_r_str. revert Hdec. apply forallb_str_impl.
    apply decimal_char_numeral. }
  destruct n as [|p|p]; [done|apply Hpos|].
  rewrite str_app_cons, app_nil_l_str. simpl. apply Hpos.
Qed.

(** [int] reads back what [str] prints. *)
Lemma int_str n : Str.int (Str.str n) = Some n.
Proof.
  assert (Hstrip : Str.rstrip_by Str.int_space_char
                     (Str.lstrip_by Str.int_space_char (Str.str n)) = Str.str n).
  { assert (Hplain : Str.forallb_str (λ c, negb (Str.int_space_char c)) (Str.str n) = true).
    { generalize (str_numeral n). apply forallb_str_impl. intros c Hc.
      by destruct (numeral_char_plain c Hc) as [-> _]. }
    by rewrite lstrip_by_id, rstrip_by_id. }
  unfold Str.int. rewrite Hstrip. clear Hstrip.
  unfold Str.str, pretty, pretty_Z.
  assert (Hpos : ∀ p : positive, ∃ c ds,
             pretty p = String c ds ∧ Str.decimal_char c = true
             ∧ Str.int_digits 0 false (String c ds) = Some (Z.pos p)).
  { intros p. unfold pretty, pretty_positive, pretty, pretty_N.
    rewrite decide_False by done.
    destruct (pretty_N_go_digits (N.pos p)) as (ds & k & Hgo & Hdec & Hint & _).
    destruct Hint as [Hne Hread]; [done|].
    rewrite Hgo, app_nil_r_str.
    destruct ds as [|c ds]; [done|]. exists c, ds. split; [done|].
    simpl in Hdec. apply andb_true_iff in Hdec as [Hc _]. split; [done|].
    specialize (Hread 0 false ""). rewrite app_nil_r_str in Hread.
    rewrite Hread. by simpl. }
  destruct n as [|p|p]; [done| |].
  - destruct (Hpos p) as (c & ds & -> & Hc & Hread). rewrite <-Hread.
    apply decimal_char_isdigit, isdigit_char_not_sign in Hc as (? & ? & _).
    destruct c as [[] [] [] [] [] [] [] []]; done.
  - destruct (Hpos p) as (c & ds & -> & Hc & Hread).
    rewrite str_app_cons, app_nil_l_str. by rewrite Hread.
Qed.

(** ** Lines of a written text *)

Lemma lines_go_line cur s rest :
  no_linebreak s = true →
  Str.lines_go false cur (s +:+ newline +:+ rest)
  = String.rev (String.rev_app s cur) :: Str.lines_go false "" rest.
Proof.
  revert cur. induction s as [|c s IH]; intros cur Hs.
  - done.
  - rewrite str_app_cons. simpl in Hs. apply andb_true_iff in Hs as [Hc Hs].
    apply negb_true_iff, orb_false_iff in Hc as [Hn Hr].
    simpl. rewrite Hr, Hn. simpl. by rewrite IH.
Qed.

Lemma file_lines_unlines ls rest :
  Forall (λ l, no_linebreak l = true) ls →
  Str.file_lines (unlines ls +:+ rest) = ls ++ Str.file_lines rest.
Proof.
  unfold Str.file_lines. induction 1 as [|l ls Hl _ IH]; [done|].
  simpl. rewrite !app_assoc_str, lines_go_line, rev_pushed by done.
  by rewrite IH.
Qed.

Lemma unlines_app ls1 ls2 : unlines (ls1 ++ ls2) = unlines ls1 +:+ unlines ls2.
Proof.
  induction ls1 as [|l ls1 IH]; [done|]. simpl. by rewrite IH, !app_assoc_str.
Qed.

Lemma concat_cons_str s ss : String.concat "" (s :: ss) = s +:+ String.concat "" ss.
Proof. destruct ss; simpl; [by rewrite app_nil_r_str|done]. Qed.

Lemma concat_unlines {A} (g f : A → string) (l : list A) :
  (∀ x, g x = f x +:+ newline) →
  String.concat "" (g <$> l) = unlines (f <$> l).
Proof.
  intros Hg. induction l as [|x l IH]; [done|].
  rewrite !fmap_cons, concat_cons_str, IH, Hg. simpl. by rewrite app_assoc_str.
Qed.

(** The text of a record is made of its lines. *)
Lemma record_text_lines file data :
  record_text file data = unlines (record_lines file data).
Proof.
  unfold record_text, record_lines. rewrite !unlines_app.
  rewrite (concat_unlines _ (λ fn, "FN:" +:+ fn) (FN data))
    by (intros; by rewrite !app_assoc_str).
  rewrite (concat_unlines _ (λ fnda, "FNDA:" +:+ fnda) (FNDA data))
    by (intros; by rewrite !app_assoc_str).
  rewrite (concat_unlines _
             (λ '(line, hits), "DA:" +:+ Str.str line +:+ "," +:+ Str.str hits)
             (DA data))
    by (intros [??]; by rewrite !app_assoc_str).
  simpl. by rewrite !app_assoc_str, !app_nil_r_str.
Qed.

Lemma report_text_lines d : report_text d = unlines (report_lines d).
Proof.
  unfold report_text, report_lines, dict_items.
  induction d as [|[file data] d IH]; [done|].
  rewrite fmap_cons, concat_cons_str, IH, record_text_lines.
  by rewrite bind_cons, unlines_app.
Qed.

(** ** Reading back a written line *)

Lemma rstrip_by_app sp p t :
  Str.rstrip_by sp t ≠ "" → Str.rstrip_by sp (p +:+ t) = p +:+ Str.rstrip_by sp t.
Proof.
  intros Ht. induction p as [|c p IH]; [done|].
  rewrite !str_app_cons. simpl. rewrite IH.
  destruct (p +:+ Str.rstrip_by sp t) eqn:Happ; [|done].
  destruct p; [by rewrite app_nil_l_str in Happ|by rewrite str_app_cons in Happ].
Qed.

(** A directive whose text does not end in whitespace is its own stripped
    form. *)
Lemma strip_tagged c p s :
  Str.isspace_char c = false →
  Str.rstrip_by Str.isspace_char (String c p) = String c p →
  Str.rstrip_by Str.isspace_char s = s →
  Str.strip (String c p +:+ s) = String c p +:+ s.
Proof.
  intros Hc Hp Hs. unfold Str.strip. rewrite str_app_cons. simpl Str.lstrip_by.
  rewrite Hc, <-str_app_cons.
  destruct s as [|a s]; [by rewrite app_nil_r_str|].
  rewrite rstrip_by_app; rewrite Hs; done.
Qed.

Lemma numeral_rstrip s :
  Str.forallb_str numeral_char s = true → Str.rstrip_by Str.isspace_char s = s.
Proof.
  intros Hs. apply rstrip_by_id. revert Hs. apply forallb_str_impl.
  intros c Hc. by destruct (numeral_char_plain c Hc) as (_ & -> & _).
Qed.

Lemma numeral_no_linebreak s :
  Str.forallb_str numeral_char s = true → no_linebreak s = true.
Proof.
  apply forallb_str_impl. intros c Hc.
  destruct (numeral_char_plain c Hc) as (_ & _ & _ & Hn & Hr).
  by rewrite !bool_decide_false.
Qed.

Lemma split_go_nosep sep cur s :
  Str.forallb_str (λ c, negb (sep c)) s = true →
  Str.split_go sep cur s = [String.rev (String.rev_app s cur)].
Proof.
  revert cur. induction s as [|c s IH]; intros cur; simpl; [done|].
  intros [Hc Hs]%andb_true_iff. apply negb_true_iff in Hc. rewrite Hc. by apply IH.
Qed.

Lemma split_go_sep sep cur s c t :
  Str.forallb_str (λ c, negb (sep c)) s = true → sep c = true →
  Str.split_go sep cur (s +:+ String c t)
  = String.rev (String.rev_app s cur) :: Str.split_go sep "" t.
Proof.
  revert cur. induction s as [|a s IH]; intros cur.
  - intros _ Hc. rewrite app_nil_l_str. simpl. by rewrite Hc.
  - rewrite str_app_cons. simpl. intros [Ha Hs]%andb_true_iff Hc.
    apply negb_true_iff in Ha. rewrite Ha. by apply IH.
Qed.

(** The two numbers of a written [DA:] line. *)
Lemma split_on_comma_numerals a b :
  Str.forallb_str numeral_char a = true → Str.forallb_str numeral_char b = true →
  Str.split_on "," (a +:+ String "," b) = [a; b].
Proof.
  intros Ha Hb. unfold Str.split_on.
  assert (Hplain : ∀ s, Str.forallb_str numeral_char s = true →
            Str.forallb_str (λ c, negb (bool_decide (c = ","%char))) s = true).
  { intros s. apply forallb_str_impl. intros c Hc.
    destruct (numeral_char_plain c Hc) as (_ & _ & Hcomma & _).
    by rewrite bool_decide_false. }
  rewrite split_go_sep, split_go_nosep, !rev_pushed by auto. done.
Qed.

Lemma startswith_nil s : Str.startswith s "" = true.
Proof. by destruct s. Qed.

Ltac expose_prefix :=
  rewrite ?str_app_cons, ?app_nil_l_str; simpl; rewrite ?startswith_nil.

Lemma effect_of_FN fn :
  Str.rstrip_by Str.isspace_char fn = fn →
  starts_record ("FN:" +:+ fn) = false
  ∧ directive_effect ("FN:" +:+ fn) = inr (Some (append_FN fn)).
Proof.
  intros Hfn. unfold starts_record, directive_effect.
  rewrite (strip_tagged "F" "N:" fn) by (done || reflexivity). by expose_prefix.
Qed.

Lemma effect_of_FNDA fnda :
  Str.rstrip_by Str.isspace_char fnda = fnda →
  starts_record ("FNDA:" +:+ fnda) = false
  ∧ directive_effect ("FNDA:" +:+ fnda) = inr (Some (append_FNDA fnda)).
Proof.
  intros Hfn. unfold starts_record, directive_effect.
  rewrite (strip_tagged "F" "NDA:" fnda) by (done || reflexivity). by expose_prefix.
Qed.

Lemma effect_of_DA line hits :
  starts_record ("DA:" +:+ Str.str line +:+ "," +:+ Str.str hits) = false
  ∧ directive_effect ("DA:" +:+ Str.str line +:+ "," +:+ Str.str hits)
    = inr (Some (append_DA (line, hits))).
Proof.
  unfold starts_record, directive_effect.
  rewrite (strip_tagged "D" "A:").
  - expose_prefix. split; [done|].
    rewrite split_on_comma_numerals by apply str_numeral. simpl.
    unfold int_of. by rewrite !int_str.
  - reflexivity.
  - reflexivity.
  - assert (Hplain : ∀ n, Str.forallb_str (λ c, negb (Str.isspace_char c)) (Str.str n)
                          = true).
    { intros n. generalize (str_numeral n). apply forallb_str_impl.
      intros c Hc. by destruct (numeral_char_plain c Hc) as (_ & -> & _). }
    apply rstrip_by_id. by rewrite !forallb_str_app, !Hplain.
Qed.

Lemma effect_of_FNF n :
  starts_record ("FNF:" +:+ Str.str n) = false
  ∧ directive_effect ("FNF:" +:+ Str.str n) = inr (Some (set_FNF n)).
Proof.
  unfold starts_record, directive_effect.
  rewrite (strip_tagged "F" "NF:")
    by (reflexivity || apply numeral_rstrip, str_numeral).
  expose_prefix. unfold int_of. by rewrite int_str.
Qed.

Lemma effect_of_FNH n :
  starts_record ("FNH:" +:+ Str.str n) = false
  ∧ directive_effect ("FNH:" +:+ Str.str n) = inr (Some (set_FNH n)).
Proof.
  unfold starts_record, directive_effect.
  rewrite (strip_tagged "F" "NH:")
    by (reflexivity || apply numeral_rstrip, str_numeral).
  expose_prefix. unfold int_of. by rewrite int_str.
Qed.

Lemma effect_of_LH n :
  starts_record ("LH:" +:+ Str.str n) = false
  ∧ directive_effect ("LH:" +:+ Str.str n) = inr (Some (set_LH n)).
Proof.
  unfold starts_record, directive_effect.
  rewrite (strip_tagged "L" "H:")
    by (reflexivity || apply numeral_rstrip, str_numeral).
  expose_prefix. unfold int_of. by rewrite int_str.
Qed.

Lemma effect_of_LF n :
  starts_record ("LF:" +:+ Str.str n) = false
  ∧ directive_effect ("LF:" +:+ Str.str n) = inr (Some (set_LF n)).
Proof.
  unfold starts_record, directive_effect.
  rewrite (strip_tagged "L" "F:")
    by (reflexivity || apply numeral_rstrip, str_numeral).
  expose_prefix. unfold int_of. by rewrite int_str.
Qed.

Lemma start_of_SF file :
  Str.rstrip_by Str.isspace_char file = file →
  starts_record ("SF:" +:+ file) = true ∧ record_path ("SF:" +:+ file) = file.
Proof.
  intros Hfile. unfold starts_record, record_path.
  rewrite (strip_tagged "S" "F:" file) by (done || reflexivity). by expose_prefix.
Qed.

(** ** Reading back a written record *)

Section dict_last.
Context {V : Type}.
Implicit Types (d : dict V) (k : string) (v : V).

Lemma dict_set_fresh d k v : k ∉ dict_keys d → dict_set d k v = d ++ [(k, v)].
Proof.
  unfold dict_keys. induction d as [|[k' v'] d IH]; csimpl; [done|].
  intros [Hne Hnin]%not_elem_of_cons.
  rewrite decide_False by done. by rewrite IH.
Qed.

Lemma dict_update_last (f : V → V) d k v :
  k ∉ dict_keys d → dict_update f k (d ++ [(k, v)]) = d ++ [(k, f v)].
Proof.
  unfold dict_keys. induction d as [|[k' v'] d IH]; csimpl.
  - intros _. by rewrite decide_True.
  - intros [Hne Hnin]%not_elem_of_cons.
    rewrite decide_False by done. by rewrite IH.
Qed.
End dict_last.

Lemma parse_effect_line l f pre cf rec :
  starts_record l = false ∧ directive_effect l = inr (Some f) →
  cf ∉ dict_keys pre →
  parse_line (reading pre cf rec) l = inr (reading pre cf (f rec)).
Proof.
  intros [HSF Heff] Hfresh. rewrite parse_line_effect, Heff by done. simpl.
  unfold with_record, reading. simpl. by rewrite dict_update_last.
Qed.

Lemma parse_effect_lines {A} (mk : A → string)
    (eff : A → coverage_record → coverage_record) (xs : list A)
    pre cf rec rest :
  (∀ x, x ∈ xs →
        starts_record (mk x) = false ∧ directive_effect (mk x) = inr (Some (eff x))) →
  cf ∉ dict_keys pre →
  for_each parse_line ((mk <$> xs) ++ rest) (reading pre cf rec)
  = for_each parse_line rest (reading pre cf (foldl (λ r x, eff x r) rec xs)).
Proof.
  intros Heff Hfresh. revert rec.
  induction xs as [|x xs IH]; intros rec; [done|].
  rewrite fmap_cons. simpl.
  rewrite (parse_effect_line _ (eff x)); [|apply Heff; by left|done]. simpl.
  apply IH. intros y Hy. apply Heff. by right.
Qed.

Lemma fold_append_FN rec l :
  foldl (λ r x, append_FN x r) rec l
  = {| DA := DA rec; FN := FN rec ++ l; FNDA := FNDA rec; FNF := FNF rec;
       FNH := FNH rec; LH := LH rec; LF := LF rec |}.
Proof.
  revert rec. induction l as [|x l IH]; intros rec; simpl.
  - rewrite app_nil_r. by destruct rec.
  - rewrite IH. simpl. by rewrite <-app_assoc.
Qed.

Lemma fold_append_FNDA rec l :
  foldl (λ r x, append_FNDA x r) rec l
  = {| DA := DA rec; FN := FN rec; FNDA := FNDA rec ++ l; FNF := FNF rec;
       FNH := FNH rec; LH := LH rec; LF := LF rec |}.
Proof.
  revert rec. induction l as [|x l IH]; intros rec; simpl.
  - rewrite app_nil_r. by destruct rec.
  - rewrite IH. simpl. by rewrite <-app_assoc.
Qed.

Lemma fold_append_DA rec l :
  foldl (λ r x, append_DA x r) rec l
  = {| DA := DA rec ++ l; FN := FN rec; FNDA := FNDA rec; FNF := FNF rec;
       FNH := FNH rec; LH := LH rec; LF := LF rec |}.
Proof.
  revert rec. induction l as [|x l IH]; intros rec; simpl.
  - rewrite app_nil_r. by destruct rec.
  - rewrite IH. simpl. by rewrite <-app_assoc.
Qed.

(** The lines written for a record, read while its key is new, leave the
    record as the last entry of the report. *)
Lemma parse_record_lines pre file data rest st :
  coverage_data st = pre → file ∉ dict_keys pre →
  writable file = true →
  forallb writable (FN data) = true → forallb writable (FNDA data) = true →
  for_each parse_line (record_lines file data ++ rest) st
  = for_each parse_line rest (reading pre file data).
Proof.
  intros Hpre Hfresh [_ Hfile%bool_decide_eq_true]%andb_true_iff HFN HFNDA.
  unfold record_lines. rewrite <-!app_assoc. simpl.
  destruct (start_of_SF file Hfile) as [HSF Hpath].
  rewrite parse_line_start, Hpath, Hpre, dict_set_fresh by done. simpl.
  fold (reading pre file new_record).
  rewrite (parse_effect_lines (λ fn, "FN:" +:+ fn) append_FN); [|
    intros fn Hfn; apply effect_of_FN;
    rewrite forallb_forall in HFN; apply list_elem_of_In, HFN in Hfn;
    by apply andb_true_iff in Hfn as [_ ?%bool_decide_eq_true] | done].
  rewrite (parse_effect_lines (λ fnda, "FNDA:" +:+ fnda) append_FNDA); [|
    intros fn Hfn; apply effect_of_FNDA;
    rewrite forallb_forall in HFNDA; apply list_elem_of_In, HFNDA in Hfn;
    by apply andb_true_iff in Hfn as [_ ?%bool_decide_eq_true] | done].
  simpl.
  rewrite (parse_effect_line _ _ _ _ _ (effect_of_FNF (FNF data))) by done. simpl.
  rewrite (parse_effect_line _ _ _ _ _ (effect_of_FNH (FNH data))) by done. simpl.
  rewrite (parse_effect_lines
             (λ '(line, hits), "DA:" +:+ Str.str line +:+ "," +:+ Str.str hits)
             append_DA); [|intros [line hits] _; apply effect_of_DA|done].
  simpl.
  rewrite (parse_effect_line _ _ _ _ _ (effect_of_LH (LH data))) by done. simpl.
  rewrite (parse_effect_line _ _ _ _ _ (effect_of_LF (LF data))) by done. simpl.
  rewrite fold_append_FN, fold_append_FNDA, fold_append_DA. simpl.
  by destruct data.
Qed.

(** ** Reading back a written report *)

Lemma writable_no_linebreak s : writable s = true → no_linebreak s = true.
Proof. unfold writable. by intros [? _]%andb_true_iff. Qed.

Lemma tagged_no_linebreak p s :
  no_linebreak p = true → no_linebreak s = true → no_linebreak (p +:+ s) = true.
Proof. unfold no_linebreak. rewrite forallb_str_app. by intros -> ->. Qed.

Lemma record_lines_no_linebreak file data :
  writable file = true →
  forallb writable (FN data) = true → forallb writable (FNDA data) = true →
  Forall (λ l, no_linebreak l = true) (record_lines file data).
Proof.
  intros Hfile HFN HFNDA. unfold record_lines.
  assert (Hstr : ∀ n, no_linebreak (Str.str n) = true)
    by (intros; apply numeral_no_linebreak, str_numeral).
  rewrite forallb_forall in HFN. rewrite forallb_forall in HFNDA.
  repeat apply Forall_app_2; repeat apply Forall_cons_2; try apply Forall_nil_2;
    try (apply tagged_no_linebreak; [reflexivity|]); try done.
  - by apply writable_no_linebreak.
  - apply Forall_fmap, Forall_forall. intros fn Hfn. simpl.
    apply tagged_no_linebreak; [reflexivity|].
    by apply writable_no_linebreak, HFN, list_elem_of_In.
  - apply Forall_fmap, Forall_forall. intros fn Hfn. simpl.
    apply tagged_no_linebreak; [reflexivity|].
    by apply writable_no_linebreak, HFNDA, list_elem_of_In.
  - apply Forall_fmap, Forall_forall. intros [line hits] _. simpl.
    repeat (apply tagged_no_linebreak; [done || reflexivity|]). done.
Qed.

Lemma report_lines_no_linebreak d :
  writable_report d = true → Forall (λ l, no_linebreak l = true) (report_lines d).
Proof.
  unfold writable_report, report_lines.
  induction d as [|[file data] d IH]; [by intros; apply Forall_nil_2|].
  intros Hd. simpl in Hd.
  apply andb_true_iff in Hd as [[[Hfile HFN]%andb_true_iff HFNDA]%andb_true_iff Hd].
  rewrite bind_cons.
  apply Forall_app_2; [by apply record_lines_no_linebreak|by apply IH].
Qed.

Lemma parse_report_lines d pre st :
  coverage_data st = pre → dict_wf (pre ++ d) → writable_report d = true →
  ∃ st', for_each parse_line (report_lines d) st = inr st'
         ∧ coverage_data st' = pre ++ d.
Proof.
  revert pre st. induction d as [|[file data] d IH]; intros pre st Hpre Hwf Hd.
  - exists st. by rewrite app_nil_r.
  - unfold writable_report in Hd. simpl in Hd.
    apply andb_true_iff in Hd as [[[Hfile HFN]%andb_true_iff HFNDA]%andb_true_iff Hd].
    unfold report_lines. rewrite bind_cons.
    assert (Hfresh : file ∉ dict_keys pre).
    { unfold dict_wf, dict_keys in Hwf. rewrite fmap_app in Hwf.
      apply NoDup_app in Hwf as (_ & Hdisj & _).
      intros Hin. apply (Hdisj file Hin). csimpl. by left. }
    rewrite (parse_record_lines pre) by done.
    destruct (IH (pre ++ [(file, data)]) (reading pre file data))
      as (st' & Hst' & Hcd); [done|by rewrite <-app_assoc|done|].
    exists st'. split; [done|]. by rewrite Hcd, <-app_assoc.
Qed.

(** Parsing the text written for a report gives the report back. *)
Lemma report_text_reads_back (d : CoverageReport) :
  dict_wf d → writable_report d = true →
  parse_lcov_lines (Str.file_lines (report_text d)) = inr d.
Proof.
  intros Hwf Hd.
  rewrite report_text_lines, <-(app_nil_r_str (unlines _)).
  rewrite file_lines_unlines by by apply report_lines_no_linebreak.
  change (Str.file_lines "") with ([] : list string). rewrite app_nil_r.
  unfold parse_lcov_lines.
  destruct (parse_report_lines d [] {| coverage_data := []; current_file := None |})
    as (st' & -> & Hcd); [done..|].
  simpl. by rewrite Hcd.
Qed.



(** ** What the parser returns can be written *)

Lemma forallb_str_rev_app p s t :
  Str.forallb_str p (String.rev_app s t) = Str.forallb_str p s && Str.forallb_str p t.
Proof.
  revert t. induction s as [|c s IH]; intros t; simpl; [done|].
  rewrite IH. simpl. by rewrite andb_assoc, (andb_comm (Str.forallb_str p s)).
Qed.

Lemma lines_go_no_linebreak n s cur :
  (String.length s ≤ n)%nat → no_linebreak cur = true →
  Forall (λ l, no_linebreak l = true) (Str.lines_go false cur s).
Proof.
  assert (Hrev : ∀ c, no_linebreak c = true → no_linebreak (String.rev c) = true).
  { intros c Hc. unfold no_linebreak, String.rev.
    by rewrite forallb_str_rev_app, andb_true_r. }
  revert s cur. induction n as [|n IH]; intros s cur Hn Hcur.
  - destruct s; [|simpl in Hn; lia]. simpl.
    destruct cur; [apply Forall_nil_2|]. apply Forall_cons_2; [by apply Hrev|done].
  - destruct s as [|c s]; simpl.
    { destruct cur; [apply Forall_nil_2|]. apply Forall_cons_2; [by apply Hrev|done]. }
    simpl in Hn. case_bool_decide as Hr.
    + destruct s as [|c' s]; [apply Forall_cons_2; [by apply Hrev|done]|].
      simpl in Hn.
      case_bool_decide; (apply Forall_cons_2; [by apply Hrev|]);
        (apply IH; [simpl; lia|done]).
    + case_bool_decide as Hl; simpl.
      * apply Forall_cons_2; [by apply Hrev|]. apply IH; [lia|done].
      * apply IH; [lia|]. unfold no_linebreak. simpl.
        by rewrite !bool_decide_false by done.
Qed.

(** The lines of a file hold no line terminator. *)
Lemma file_lines_no_linebreak text :
  Forall (λ l, no_linebreak l = true) (Str.file_lines text).
Proof. by apply (lines_go_no_linebreak (String.length text)). Qed.

Lemma forallb_str_lstrip p sp s :
  Str.forallb_str p s = true → Str.forallb_str p (Str.lstrip_by sp s) = true.
Proof.
  induction s as [|c s IH]; simpl; [done|].
  intros [Hc Hs]%andb_true_iff. destruct (sp c); [by apply IH|].
  simpl. by rewrite Hc, Hs.
Qed.

Lemma forallb_str_rstrip p sp s :
  Str.forallb_str p s = true → Str.forallb_str p (Str.rstrip_by sp s) = true.
Proof.
  induction s as [|c s IH]; simpl; [done|].
  intros [Hc Hs]%andb_true_iff. specialize (IH Hs).
  destruct (Str.rstrip_by sp s); [destruct (sp c); [done|]|]; simpl in *;
    by rewrite Hc.
Qed.

Lemma forallb_str_slice p n s :
  Str.forallb_str p s = true → Str.forallb_str p (Str.slice_from n s) = true.
Proof.
  revert s. induction n as [|n IH]; intros [|c s]; simpl; try done.
  intros [_ Hs]%andb_true_iff. by apply IH.
Qed.

Lemma rstrip_by_idemp sp s :
  Str.rstrip_by sp (Str.rstrip_by sp s) = Str.rstrip_by sp s.
Proof.
  induction s as [|c s IH]; simpl; [done|].
  destruct (Str.rstrip_by sp s) as [|a r] eqn:Hr.
  - destruct (sp c) eqn:Hc; simpl; [done|]. by rewrite Hc.
  - simpl in *. by rewrite IH.
Qed.

Lemma rstrip_fixed_tail sp c s :
  Str.rstrip_by sp (String c s) = String c s → Str.rstrip_by sp s = s.
Proof.
  simpl. destruct (Str.rstrip_by sp s) as [|a r].
  - destruct (sp c); [done|]. by intros [= <-].
  - by intros [= <-].
Qed.

Lemma rstrip_fixed_slice sp n s :
  Str.rstrip_by sp s = s → Str.rstrip_by sp (Str.slice_from n s) = Str.slice_from n s.
Proof.
  revert s. induction n as [|n IH]; intros [|c s]; simpl; try done.
  - intros Hs. apply IH. by apply (rstrip_fixed_tail sp c).
Qed.

(** What the parser cuts out of a line can be written again. *)
Lemma writable_slice_strip n raw :
  no_linebreak raw = true → writable (Str.slice_from n (Str.strip raw)) = true.
Proof.
  intros Hraw. unfold writable, Str.strip. apply andb_true_iff. split.
  - by apply forallb_str_slice, forallb_str_rstrip, forallb_str_lstrip.
  - apply bool_decide_eq_true, rstrip_fixed_slice, rstrip_by_idemp.
Qed.

Lemma writable_report_entries d :
  writable_report d = forallb writable_entry d.
Proof.
  unfold writable_report. induction d as [|[file data] d IH]; [done|].
  simpl. by rewrite IH.
Qed.

Lemma forallb_dict_set {V} (P : string * V → bool) d k v :
  forallb P d = true → P (k, v) = true → forallb P (dict_set d k v) = true.
Proof.
  induction d as [|[k' v'] d IH]; simpl.
  - intros _ ->. done.
  - intros [Hhead Hd]%andb_true_iff Hv. destruct (decide (k' = k)) as [->|]; simpl.
    + by rewrite Hv, Hd.
    + by rewrite Hhead, IH.
Qed.

Lemma forallb_dict_update {V} (P : string * V → bool) (f : V → V) d k :
  (∀ k' v, P (k', v) = true → P (k', f v) = true) →
  forallb P d = true → forallb P (dict_update f k d) = true.
Proof.
  intros Hf. induction d as [|[k' v'] d IH]; simpl; [done|].
  intros [Hhead Hd]%andb_true_iff. destruct (decide (k' = k)); simpl.
  - by rewrite Hf, Hd.
  - by rewrite Hhead, IH.
Qed.

Lemma directive_effect_writable raw f file data :
  no_linebreak raw = true → directive_effect raw = inr (Some f) →
  writable_entry (file, data) = true → writable_entry (file, f data) = true.
Proof.
  intros Hraw. unfold directive_effect, writable_entry.
  pose proof (writable_slice_strip 3 raw Hraw) as H3.
  pose proof (writable_slice_strip 5 raw Hraw) as H5.
  simpl in H3, H5.
  repeat match goal with
  | |- context [if Str.startswith ?l ?p then _ else _] =>
      destruct (Str.startswith l p)
  end; try done;
  repeat match goal with
  | |- context [from_option int_of ?d ?o] => destruct o; simpl; [|done]
  | |- context [int_of ?s] => destruct (int_of s) as [?|?]; simpl; [done|]
  end;
  intros [= <-]; simpl; try done;
  intros [[Hfile HFN]%andb_true_iff HFNDA]%andb_true_iff;
  rewrite Hfile, ?forallb_app, ?HFN, ?HFNDA; simpl;
  by rewrite ?H3, ?H5.
Qed.

Lemma parse_line_writable st st' raw :
  no_linebreak raw = true → parse_line st raw = inr st' →
  writable_report (coverage_data st) = true →
  writable_report (coverage_data st') = true.
Proof.
  intros Hraw. rewrite !writable_report_entries.
  destruct (starts_record raw) eqn:HSF.
  - rewrite parse_line_start by done. intros [= <-] Hwr. simpl.
    apply forallb_dict_set; [done|].
    unfold writable_entry, record_path.
    cbn [fst snd FN FNDA new_record forallb]. by rewrite writable_slice_strip.
  - rewrite parse_line_effect by done.
    destruct (directive_effect raw) as [e|[f|]] eqn:Heff; simpl; [done| |by intros [= <-]].
    unfold with_record. destruct (current_file st) as [cf|]; [|done].
    intros [= <-] Hwr. simpl. apply forallb_dict_update; [|done].
    intros k v. by apply (directive_effect_writable raw).
Qed.

(** Every path and function descriptor of a parsed report can be written
    on a line. *)
Lemma parsed_report_writable text r :
  parse_lcov_lines (Str.file_lines text) = inr r → writable_report r = true.
Proof.
  unfold parse_lcov_lines.
  destruct (for_each parse_line _ _) as [e|st] eqn:Hloop; simpl; [done|].
  intros [= <-]. revert Hloop.
  apply (for_each_invariant (λ st, writable_report (coverage_data st) = true));
    [done|].
  intros st1 l st2 Hl Hwr Hline. apply (parse_line_writable st1 st2 l); [|done..].
  pose proof (file_lines_no_linebreak text) as Hall.
  rewrite Forall_forall in Hall. by apply Hall.
Qed.

(** The filter keeps the paths and function descriptors of the report. *)
Lemma filtered_report_writable cs r :
  writable_report r = true →
  writable_report (filter_lcov_by_git_diff cs r) = true.
Proof.
  rewrite !writable_report_entries, !forallb_forall.
  intros Hr [cd rec] Hin%list_elem_of_In.
  apply (dict_elem_of_get _ _ _ (filter_wf cs r)) in Hin.
  rewrite filter_get in Hin.
  apply stored_for_Some in Hin as (file & lines & data & _ & _ & Hget & _ & ->).
  apply dict_get_elem_of, list_elem_of_In, Hr in Hget. done.
Qed.

(** ** [main]: what a run leaves behind *)

(** A run that ends with an exception, whichever it is, leaves every file
    as it was: the output is opened only after the diff, the parsing and
    the filter went through. *)
Theorem failed_run_writes_nothing
    (subprocess_run : list string → CompletedProcess)
    (commit_id folder_path lcov_report_path output_lcov_path : string)
    (fs fs' : FileSystem) (e : Exception) :
  main subprocess_run commit_id folder_path lcov_report_path output_lcov_path fs
  = (inl e, fs') →
  fs' = fs.
Proof.
  unfold main, mbind, io_bind, pure_io, parse_lcov_report, save_filtered_lcov_report.
  destruct (get_git_diff_lines _ _ _) as [e1|cs]; [by intros [= _ <-]|].
  destruct (fs !! lcov_report_path) as [text|]; [|by intros [= _ <-]].
  destruct (parse_lcov_lines _) as [e2|r]; [by intros [= _ <-]|done].
Qed.

Lemma failed_run_writes_nothing_witness :
  (main example_run "HEAD" "src" "coverage.dat" "filtered.dat"
        {[ "coverage.dat" := headless_report ]}).2
  = {[ "coverage.dat" := headless_report ]}.
Proof.
  apply (failed_run_writes_nothing example_run "HEAD" "src" "coverage.dat"
           "filtered.dat" _ _ TypeError).
  vm_compute; reflexivity.
Defined.

(** When the diff went through and the report does not exist, the run
    stops with [FileNotFoundError], its message names the path, and no
    file is written. *)
Theorem missing_report_stops_the_run
    (subprocess_run : list string → CompletedProcess)
    (commit_id folder_path lcov_report_path output_lcov_path : string)
    (fs : FileSystem) (changes : ChangeSet) :
  get_git_diff_lines subprocess_run commit_id folder_path = inr changes →
  fs !! lcov_report_path = None →
  main subprocess_run commit_id folder_path lcov_report_path output_lcov_path fs
  = (inl (FileNotFoundError ("LCOV report not found at path: " +:+ lcov_report_path)),
     fs).
Proof.
  intros Hdiff Hfile.
  unfold main, mbind, io_bind, pure_io, parse_lcov_report.
  by rewrite Hdiff, Hfile.
Qed.

Lemma missing_report_stops_the_run_witness :
  main example_run "HEAD" "src" "coverage.dat" "filtered.dat" ∅
  = (inl (FileNotFoundError "LCOV report not found at path: coverage.dat"), ∅).
Proof.
  apply (missing_report_stops_the_run example_run "HEAD" "src" "coverage.dat"
           "filtered.dat" ∅ [("src/Foo.java", list_to_set (range 1 4))]);
    vm_compute; reflexivity.
Defined.

(** A run that succeeds changes the output path only, and the file it
    writes parses back to exactly the filtered report: the same records
    under the same keys, in the same order. *)
Theorem successful_run_reads_back
    (subprocess_run : list string → CompletedProcess)
    (commit_id folder_path lcov_report_path output_lcov_path : string)
    (fs fs' : FileSystem) :
  main subprocess_run commit_id folder_path lcov_report_path output_lcov_path fs
  = (inr (), fs') →
  ∃ changes report,
    get_git_diff_lines subprocess_run commit_id folder_path = inr changes
    ∧ parse_lcov_report lcov_report_path fs = (inr report, fs)
    ∧ (∀ path, path ≠ output_lcov_path → fs' !! path = fs !! path)
    ∧ parse_lcov_report output_lcov_path fs'
      = (inr (filter_lcov_by_git_diff changes report), fs').
Proof.
  unfold main, mbind, io_bind, pure_io, parse_lcov_report at 1,
    save_filtered_lcov_report.
  destruct (get_git_diff_lines _ _ _) as [e1|cs]; [done|].
  destruct (fs !! lcov_report_path) as [text|] eqn:Hfile; [|done].
  destruct (parse_lcov_lines _) as [e2|r] eqn:Hparse; [done|].
  intros [= <-]. exists cs, r. split_and!; [done| | |].
  - unfold parse_lcov_report. by rewrite Hfile, Hparse.
  - intros path Hpath. by rewrite lookup_insert_ne.
  - unfold parse_lcov_report. rewrite lookup_insert_eq.
    rewrite report_text_reads_back; [done|apply filter_wf|].
    by apply filtered_report_writable, (parsed_report_writable text).
Qed.

Lemma successful_run_reads_back_witness :
  ∃ changes report,
    get_git_diff_lines example_run "HEAD" "src" = inr changes
    ∧ parse_lcov_report "coverage.dat" {[ "coverage.dat" := scenario_report ]}
      = (inr report, {[ "coverage.dat" := scenario_report ]})
    ∧ (∀ path, path ≠ "filtered.dat" →
         (<[ "filtered.dat" := scenario_filtered ]>
            {[ "coverage.dat" := scenario_report ]} : FileSystem) !! path
         = ({[ "coverage.dat" := scenario_report ]} : FileSystem) !! path)
    ∧ parse_lcov_report "filtered.dat"
        (<[ "filtered.dat" := scenario_filtered ]>
           {[ "coverage.dat" := scenario_report ]})
      = (inr (filter_lcov_by_git_diff changes report),
         <[ "filtered.dat" := scenario_filtered ]>
           {[ "coverage.dat" := scenario_report ]}).
Proof.
  apply (successful_run_reads_back example_run "HEAD" "src" "coverage.dat"
           "filtered.dat" {[ "coverage.dat" := scenario_report ]}).
  vm_compute; reflexivity.
Defined.

(** A run on an empty diff output writes an empty file, whatever the report
    holds, as long as the report parses. *)
Theorem empty_diff_writes_an_empty_file
    (subprocess_run : list string → CompletedProcess)
    (commit_id folder_path lcov_report_path output_lcov_path text : string)
    (fs : FileSystem) (report : CoverageReport) :
  let p := subprocess_run (diff_command commit_id folder_path) in
  returncode p = 0 → stdout p = "" →
  fs !! lcov_report_path = Some text →
  parse_lcov_lines (Str.file_lines text) = inr report →
  main subprocess_run commit_id folder_path lcov_report_path output_lcov_path fs
  = (inr (), <[ output_lcov_path := "" ]> fs).
Proof.
  intros p Hrc Hout Hfile Hparse.
  unfold main, mbind, io_bind, pure_io, parse_lcov_report, save_filtered_lcov_report.
  rewrite get_git_diff_lines_zero by done. fold p. rewrite Hout, Hfile, Hparse.
  done.
Qed.

Lemma empty_diff_writes_an_empty_file_witness :
  main silent_run "HEAD" "src" "coverage.dat" "filtered.dat"
       {[ "coverage.dat" := scenario_report ]}
  = (inr (), <[ "filtered.dat" := "" ]> {[ "coverage.dat" := scenario_report ]}).
Proof.
  apply (empty_diff_writes_an_empty_file silent_run "HEAD" "src" "coverage.dat"
           "filtered.dat" scenario_report _
           [("src/Foo.java", example_record)]); vm_compute; reflexivity.
Defined.

(** ** The fields of a [DA:] directive *)



(** ** What the filter does not promise *)

(** Filtering a second time can change the order of the keys: the two
    reports hold the same records, and their texts list them in different
    orders. *)
Theorem second_filter_can_reorder_the_keys :
  ∃ (cs : ChangeSet) (r : CoverageReport),
    dict_wf cs ∧ dict_wf r
    ∧ dict_eq (filter_lcov_by_git_diff cs (filter_lcov_by_git_diff cs r))
              (filter_lcov_by_git_diff cs r)
    ∧ report_text (filter_lcov_by_git_diff cs (filter_lcov_by_git_diff cs r))
      ≠ report_text (filter_lcov_by_git_diff cs r).
Proof.
  exists crossing_changes, crossing_report. split_and!.
  - apply (bool_decide_unpack _). vm_compute. exact I.
  - apply (bool_decide_unpack _). vm_compute. exact I.
  - intros cd. rewrite !filter_get. apply stored_for_filtered.
  - vm_compute. discriminate.
Qed.

(** A record can keep a line that is not among the changed lines the change
    set holds for the record's own path: a later key that contains the path
    is the one the record is filtered against. *)
Theorem own_entry_can_be_overridden :
  ∃ (cs : ChangeSet) (r : CoverageReport) cd changed_lines rec line hits,
    dict_wf cs ∧ dict_wf r
    ∧ dict_get cs cd = Some changed_lines
    ∧ dict_get (filter_lcov_by_git_diff cs r) cd = Some rec
    ∧ (line, hits) ∈ DA rec ∧ line ∉ changed_lines.
Proof.
  exists nested_changes, nested_report, "Foo.java", {[ 1 ]},
    (filtered_record
       {| DA := [(1, 1); (2, 1)]; FN := []; FNDA := []; FNF := 0; FNH := 0;
          LH := 2; LF := 2 |} (list_to_set (range 1 4))), 2, 1.
  split_and!.
  - apply (bool_decide_unpack _). vm_compute. exact I.
  - apply (bool_decide_unpack _). vm_compute. exact I.
  - vm_compute; reflexivity.
  - vm_compute; reflexivity.
  - vm_compute. right. left.
  - intros Hin%elem_of_singleton. discriminate Hin.
Qed.
